(** * A model of [OrbitPropagator.py]: two-body orbit propagation

    The development embeds the class [OrbitPropagator] of
    [src/OrbitPropagator.py]: its constructor [__init__], the stepping loop
    [propagate_orbit] and the equations of motion [diffy_q].

    - Python's numbers are an interface, [Scalar]: the arithmetic the source
      performs ([+], [*], unary [-], [/], [**], [np.linalg.norm]'s square
      root, [int(np.ceil(..))]).  Two instances are given: IEEE binary64
      (the kernel's primitive floats, which is what Python and numpy compute
      with) and exact rationals, an arithmetic without rounding.  What is
      stated of the program's numbers is proved for every instance, or for
      binary64.
    - [scipy.integrate.ode] is an interface, [OdeSolver]; [tools.coes2rv],
      [tools.true_anomaly_r] and the planetary data table are not part of
      the file under study and are parameters of the model.
    - The instance [self] is a record of optional attributes (an attribute
      that was never assigned raises [AttributeError] when read), threaded
      through a state-and-exception monad in which the state survives an
      exception, as a mutated Python object does. *)

From Stdlib Require Import ZArith QArith Qcanon Qround Lia String.
From Stdlib Require Import Uint63 PrimFloat FloatOps SpecFloat FloatAxioms.
From stdpp Require Import base option list gmap strings.

Local Open Scope string_scope.
Local Open Scope list_scope.
Local Open Scope Z_scope.

(** ** Exceptions and outcomes *)

(** The built-in exceptions the modelled statements can raise.  [Foreign]
    stands for any other exception raised inside a collaborator ([tools],
    [scipy]). *)
Inductive exn : Type :=
| AttributeError (attr : string)
| KeyError (key : string)
| IndexError
| ValueError
| ZeroDivisionError
| OverflowError
| Foreign (name : string).

(** What running a piece of code yields: a value, an exception, or (for the
    fuel-bounded loop only) exhaustion of the fuel. *)
Inductive outcome (A : Type) : Type :=
| Return (a : A)
| Raised (e : exn)
| OutOfFuel.
Arguments Return {A} a.
Arguments Raised {A} e.
Arguments OutOfFuel {A}.

(** ** Numbers *)

(** The operations of Python/numpy numbers used by the source. *)
Class Scalar (F : Type) : Type := {
  (** an integer literal or the fill value of [np.zeros] *)
  of_int : Z -> F;
  (** [x + y] *)
  add : F -> F -> F;
  (** [-x] *)
  neg : F -> F;
  (** [x * y] *)
  mul : F -> F -> F;
  (** [x / y] on Python numbers: a zero divisor raises *)
  true_div : F -> F -> exn + F;
  (** [x / y] on numpy values: never raises (a zero divisor gives a
      non-finite value where the instance has one) *)
  np_div : F -> F -> F;
  (** [x ** n] *)
  pow : F -> Z -> F;
  (** [np.sqrt], as used inside [np.linalg.norm] *)
  sqrt : F -> F;
  (** [int(np.ceil(x))] *)
  ceil_int : F -> exn + Z
}.

(** ** The integrator interface ([scipy.integrate.ode]) *)

Class OdeSolver (F S : Type) : Type := {
  (** [ode(f)] *)
  ode : (F -> list F -> exn + list F) -> S;
  (** [solver.set_integrator(name)] *)
  set_integrator : S -> string -> S;
  (** [solver.set_initial_value(y, t)] *)
  set_initial_value : S -> list F -> F -> S;
  (** [solver.integrate(t)]: advances the solver in place; an exception
      raised by the callback leaves [y] and [t] as they were *)
  integrate : S -> F -> exn + S;
  (** [solver.t] *)
  sol_t : S -> F;
  (** [solver.y] *)
  sol_y : S -> list F;
  (** [solver.successful()], the method, when it is called *)
  successful : S -> bool
}.

(** ** Python values and truthiness *)

(** The two kinds of value that reach the loop condition. *)
Inductive pyobj : Type :=
| PyBool (b : bool)
| PyBoundMethod (owner method : string).

(** [bool(v)]: a bound method defines neither [__bool__] nor [__len__]. *)
Definition truthy (v : pyobj) : bool :=
  match v with
  | PyBool b => b
  | PyBoundMethod _ _ => true
  end.

(** ** numpy arrays *)

Section Arrays.
Context {A : Type}.

(** [np.zeros((n, ..))]: [n] rows; a negative dimension raises. *)
Definition np_zeros (n : Z) (row : A) : exn + list A :=
  if n <? 0 then inl ValueError else inr (replicate (Z.to_nat n) row).

(** Python's index normalisation along an axis of length [len]. *)
Definition norm_index (len : nat) (i : Z) : exn + nat :=
  if (0 <=? i) && (i <? Z.of_nat len) then inr (Z.to_nat i)
  else if (- Z.of_nat len <=? i) && (i <? 0) then inr (Z.to_nat (Z.of_nat len + i))
  else inl IndexError.

(** [a[i] = x] *)
Definition setitem (a : list A) (i : Z) (x : A) : exn + list A :=
  match norm_index (length a) i with
  | inl e => inl e
  | inr k => inr (<[k := x]> a)
  end.

(** [a[i]] *)
Definition getitem (a : list A) (i : Z) : exn + A :=
  match norm_index (length a) i with
  | inl e => inl e
  | inr k => match a !! k with Some x => inr x | None => inl IndexError end
  end.

(** Broadcasting a sequence into a row of [width] entries: same length,
    or a single entry repeated. *)
Definition broadcast_row (width : nat) (v : list A) : exn + list A :=
  if bool_decide (length v = width) then inr v
  else match v with
       | [x] => inr (replicate width x)
       | _ => inl ValueError
       end.

(** [a[i] = v] and [a[i, :] = v] on a two-dimensional array: [v] is
    broadcast to the width of the row it replaces. *)
Definition setrow (a : list (list A)) (i : Z) (v : list A)
  : exn + list (list A) :=
  match norm_index (length a) i with
  | inl e => inl e
  | inr k =>
      match a !! k with
      | None => inl IndexError
      | Some old =>
          match broadcast_row (length old) v with
          | inl e => inl e
          | inr row => inr (<[k := row]> a)
          end
      end
  end.
End Arrays.

(** A view on columns of a two-dimensional array ([a[:, lo:hi]]): it shares
    the array's storage, so it is kept as a description and read through
    the array. *)
Inductive view : Type :=
| ColSlice (lo : option nat) (hi : option nat).

Definition read_view {A : Type} (a : list (list A)) (v : view) : list (list A) :=
  match v with
  | ColSlice lo hi =>
      let cut (row : list A) :=
        let upto := match hi with Some h => take h row | None => row end in
        match lo with Some l => drop l upto | None => upto end
      in map cut a
  end.

(** [d[key]] on a dict. *)
Definition dict_get {V : Type} (d : gmap string V) (key : string) : exn + V :=
  match d !! key with
  | Some v => inr v
  | None => inl (KeyError key)
  end.

(** ** State and exceptions *)

(** A computation on a mutable object of type [St]: the object as it is
    left, and the outcome.  The object keeps its mutations when an
    exception is raised. *)
Definition M (St A : Type) : Type := St -> St * outcome A.

Section Monad.
Context {St : Type}.

Definition ret {A : Type} (a : A) : M St A := fun self => (self, Return a).

Definition bind {A B : Type} (m : M St A) (k : A -> M St B) : M St B :=
  fun self =>
    match m self with
    | (self', Return a) => k a self'
    | (self', Raised e) => (self', Raised e)
    | (self', OutOfFuel) => (self', OutOfFuel)
    end.

Definition raise {A : Type} (e : exn) : M St A := fun self => (self, Raised e).

Definition out_of_fuel {A : Type} : M St A := fun self => (self, OutOfFuel).

(** The result of a call to a collaborator. *)
Definition call {A : Type} (r : exn + A) : M St A :=
  match r with
  | inl e => raise e
  | inr a => ret a
  end.

(** [self.name], read. *)
Definition getattr {A : Type} (name : string) (proj : St -> option A) : M St A :=
  fun self =>
    match proj self with
    | Some a => (self, Return a)
    | None => (self, Raised (AttributeError name))
    end.

(** [self.name = ..], through the attribute's setter. *)
Definition setattr (upd : St -> St) : M St unit :=
  fun self => (upd self, Return tt).
End Monad.

Declare Scope py_scope.
Delimit Scope py_scope with py.
Notation "x <- c1 ;; c2" := (bind c1 (fun x => c2))
  (at level 100, c1 at next level, right associativity) : py_scope.
Notation "c1 ;; c2" := (bind c1 (fun _ => c2))
  (at level 100, right associativity) : py_scope.
Local Open Scope py_scope.

(** ** The class [OrbitPropagator] *)

Section Propagator.
Context {F S : Type} `{!Scalar F} `{!OdeSolver F S}.

(** [tools.coes2rv(state0, deg=.., mu=..)]: position and velocity. *)
Variable coes2rv : list F -> bool -> F -> exn + (list F * list F).
(** [tools.true_anomaly_r(state)]. *)
Variable true_anomaly_r : list F -> exn + F.

(** The attributes of an instance, each absent until first assigned.
    [ts] and [ta] are [(n, 1)] arrays, kept as [n] scalars; [ys] is an
    [(n, 6)] array, kept as [n] rows. *)
Record OrbitPropagator : Type := {
  self_r0 : option (list F);
  self_v0 : option (list F);
  self_y0 : option (list F);
  self_tspan : option F;
  self_dt : option F;
  self_cb : option (gmap string F);
  self_n_steps : option Z;
  self_ys : option (list (list F));
  self_ts : option (list F);
  self_step : option Z;
  self_ta : option (list F);
  self_solver : option S;
  self_rs : option view;
  self_vs : option view
}.

(** A fresh instance, before [__init__] runs. *)
Definition blank : OrbitPropagator :=
  {| self_r0 := None; self_v0 := None; self_y0 := None; self_tspan := None;
     self_dt := None; self_cb := None; self_n_steps := None; self_ys := None;
     self_ts := None; self_step := None; self_ta := None; self_solver := None;
     self_rs := None; self_vs := None |}.

Definition set_r0 (x : list F) (o : OrbitPropagator) : OrbitPropagator :=
  {| self_r0 := Some x; self_v0 := self_v0 o; self_y0 := self_y0 o;
     self_tspan := self_tspan o; self_dt := self_dt o; self_cb := self_cb o;
     self_n_steps := self_n_steps o; self_ys := self_ys o; self_ts := self_ts o;
     self_step := self_step o; self_ta := self_ta o; self_solver := self_solver o;
     self_rs := self_rs o; self_vs := self_vs o |}.
Definition set_v0 (x : list F) (o : OrbitPropagator) : OrbitPropagator :=
  {| self_r0 := self_r0 o; self_v0 := Some x; self_y0 := self_y0 o;
     self_tspan := self_tspan o; self_dt := self_dt o; self_cb := self_cb o;
     self_n_steps := self_n_steps o; self_ys := self_ys o; self_ts := self_ts o;
     self_step := self_step o; self_ta := self_ta o; self_solver := self_solver o;
     self_rs := self_rs o; self_vs := self_vs o |}.
Definition set_y0 (x : list F) (o : OrbitPropagator) : OrbitPropagator :=
  {| self_r0 := self_r0 o; self_v0 := self_v0 o; self_y0 := Some x;
     self_tspan := self_tspan o; self_dt := self_dt o; self_cb := self_cb o;
     self_n_steps := self_n_steps o; self_ys := self_ys o; self_ts := self_ts o;
     self_step := self_step o; self_ta := self_ta o; self_solver := self_solver o;
     self_rs := self_rs o; self_vs := self_vs o |}.
Definition set_tspan (x : F) (o : OrbitPropagator) : OrbitPropagator :=
  {| self_r0 := self_r0 o; self_v0 := self_v0 o; self_y0 := self_y0 o;
     self_tspan := Some x; self_dt := self_dt o; self_cb := self_cb o;
     self_n_steps := self_n_steps o; self_ys := self_ys o; self_ts := self_ts o;
     self_step := self_step o; self_ta := self_ta o; self_solver := self_solver o;
     self_rs := self_rs o; self_vs := self_vs o |}.
Definition set_dt (x : F) (o : OrbitPropagator) : OrbitPropagator :=
  {| self_r0 := self_r0 o; self_v0 := self_v0 o; self_y0 := self_y0 o;
     self_tspan := self_tspan o; self_dt := Some x; self_cb := self_cb o;
     self_n_steps := self_n_steps o; self_ys := self_ys o; self_ts := self_ts o;
     self_step := self_step o; self_ta := self_ta o; self_solver := self_solver o;
     self_rs := self_rs o; self_vs := self_vs o |}.
Definition set_cb (x : gmap string F) (o : OrbitPropagator) : OrbitPropagator :=
  {| self_r0 := self_r0 o; self_v0 := self_v0 o; self_y0 := self_y0 o;
     self_tspan := self_tspan o; self_dt := self_dt o; self_cb := Some x;
     self_n_steps := self_n_steps o; self_ys := self_ys o; self_ts := self_ts o;
     self_step := self_step o; self_ta := self_ta o; self_solver := self_solver o;
     self_rs := self_rs o; self_vs := self_vs o |}.
Definition set_n_steps (x : Z) (o : OrbitPropagator) : OrbitPropagator :=
  {| self_r0 := self_r0 o; self_v0 := self_v0 o; self_y0 := self_y0 o;
     self_tspan := self_tspan o; self_dt := self_dt o; self_cb := self_cb o;
     self_n_steps := Some x; self_ys := self_ys o; self_ts := self_ts o;
     self_step := self_step o; self_ta := self_ta o; self_solver := self_solver o;
     self_rs := self_rs o; self_vs := self_vs o |}.
Definition set_ys (x : list (list F)) (o : OrbitPropagator) : OrbitPropagator :=
  {| self_r0 := self_r0 o; self_v0 := self_v0 o; self_y0 := self_y0 o;
     self_tspan := self_tspan o; self_dt := self_dt o; self_cb := self_cb o;
     self_n_steps := self_n_steps o; self_ys := Some x; self_ts := self_ts o;
     self_step := self_step o; self_ta := self_ta o; self_solver := self_solver o;
     self_rs := self_rs o; self_vs := self_vs o |}.
Definition set_ts (x : list F) (o : OrbitPropagator) : OrbitPropagator :=
  {| self_r0 := self_r0 o; self_v0 := self_v0 o; self_y0 := self_y0 o;
     self_tspan := self_tspan o; self_dt := self_dt o; self_cb := self_cb o;
     self_n_steps := self_n_steps o; self_ys := self_ys o; self_ts := Some x;
     self_step := self_step o; self_ta := self_ta o; self_solver := self_solver o;
     self_rs := self_rs o; self_vs := self_vs o |}.
Definition set_step (x : Z) (o : OrbitPropagator) : OrbitPropagator :=
  {| self_r0 := self_r0 o; self_v0 := self_v0 o; self_y0 := self_y0 o;
     self_tspan := self_tspan o; self_dt := self_dt o; self_cb := self_cb o;
     self_n_steps := self_n_steps o; self_ys := self_ys o; self_ts := self_ts o;
     self_step := Some x; self_ta := self_ta o; self_solver := self_solver o;
     self_rs := self_rs o; self_vs := self_vs o |}.
Definition set_ta (x : list F) (o : OrbitPropagator) : OrbitPropagator :=
  {| self_r0 := self_r0 o; self_v0 := self_v0 o; self_y0 := self_y0 o;
     self_tspan := self_tspan o; self_dt := self_dt o; self_cb := self_cb o;
     self_n_steps := self_n_steps o; self_ys := self_ys o; self_ts := self_ts o;
     self_step := self_step o; self_ta := Some x; self_solver := self_solver o;
     self_rs := self_rs o; self_vs := self_vs o |}.
Definition set_solver (x : S) (o : OrbitPropagator) : OrbitPropagator :=
  {| self_r0 := self_r0 o; self_v0 := self_v0 o; self_y0 := self_y0 o;
     self_tspan := self_tspan o; self_dt := self_dt o; self_cb := self_cb o;
     self_n_steps := self_n_steps o; self_ys := self_ys o; self_ts := self_ts o;
     self_step := self_step o; self_ta := self_ta o; self_solver := Some x;
     self_rs := self_rs o; self_vs := self_vs o |}.
Definition set_rs (x : view) (o : OrbitPropagator) : OrbitPropagator :=
  {| self_r0 := self_r0 o; self_v0 := self_v0 o; self_y0 := self_y0 o;
     self_tspan := self_tspan o; self_dt := self_dt o; self_cb := self_cb o;
     self_n_steps := self_n_steps o; self_ys := self_ys o; self_ts := self_ts o;
     self_step := self_step o; self_ta := self_ta o; self_solver := self_solver o;
     self_rs := Some x; self_vs := self_vs o |}.
Definition set_vs (x : view) (o : OrbitPropagator) : OrbitPropagator :=
  {| self_r0 := self_r0 o; self_v0 := self_v0 o; self_y0 := self_y0 o;
     self_tspan := self_tspan o; self_dt := self_dt o; self_cb := self_cb o;
     self_n_steps := self_n_steps o; self_ys := self_ys o; self_ts := self_ts o;
     self_step := self_step o; self_ta := self_ta o; self_solver := self_solver o;
     self_rs := self_rs o; self_vs := Some x |}.

(** *** [diffy_q] (lines 76-90) *)

(** [np.linalg.norm] of a one-dimensional array: the square root of the
    dot product of the array with itself. *)
Definition linalg_norm (r : list F) : F :=
  sqrt (foldl (fun acc x => add acc (mul x x)) (of_int 0) r).

(** [diffy_q(self, t, y)]: unpacks six components (any other length makes
    the unpacking fail), and returns the velocity followed by
    [-r*self.cb['mu']/norm_r**3], taken component by component. *)
Definition diffy_q (self : OrbitPropagator) (t : F) (y : list F) : exn + list F :=
  match y with
  | [rx; ry; rz; vx; vy; vz] =>
      let r := [rx; ry; rz] in
      let norm_r := linalg_norm r in
      match self_cb self with
      | None => inl (AttributeError "cb")
      | Some cb =>
          match dict_get cb "mu" with
          | inl e => inl e
          | inr mu =>
              let accel (ri : F) := np_div (mul (neg ri) mu) (pow norm_r 3) in
              inr [vx; vy; vz; accel rx; accel ry; accel rz]
          end
      end
  | _ => inl ValueError
  end.

(** *** [propagate_orbit] (lines 63-74) *)

(** [self.solver.successful]: the attribute is read, the method is not
    called, so the value is the bound method itself. *)
Definition solver_successful_attr (s : S) : pyobj :=
  PyBoundMethod "ode" "successful".

(** [self.solver.successful and self.step < self.n_steps] *)
Definition loop_condition : M OrbitPropagator bool :=
  s <- getattr "solver" self_solver ;;
  if truthy (solver_successful_attr s) then
    k <- getattr "step" self_step ;;
    n <- getattr "n_steps" self_n_steps ;;
    ret (k <? n)
  else ret false.

(** The body of the [while] loop (lines 66-70). *)
Definition loop_body : M OrbitPropagator unit :=
  (* self.solver.integrate(self.solver.t + self.dt) *)
  s <- getattr "solver" self_solver ;;
  d <- getattr "dt" self_dt ;;
  s' <- call (integrate s (add (sol_t s) d)) ;;
  setattr (set_solver s') ;;
  (* self.ts[self.step] = self.solver.t *)
  s <- getattr "solver" self_solver ;;
  ts <- getattr "ts" self_ts ;;
  k <- getattr "step" self_step ;;
  ts' <- call (setitem ts k (sol_t s)) ;;
  setattr (set_ts ts') ;;
  (* self.ys[self.step] = self.solver.y *)
  s <- getattr "solver" self_solver ;;
  ys <- getattr "ys" self_ys ;;
  k <- getattr "step" self_step ;;
  ys' <- call (setrow ys k (sol_y s)) ;;
  setattr (set_ys ys') ;;
  (* self.ta[self.step] = t.true_anomaly_r(self.ys[self.step]) *)
  ys <- getattr "ys" self_ys ;;
  k <- getattr "step" self_step ;;
  row <- call (getitem ys k) ;;
  nu <- call (true_anomaly_r row) ;;
  ta <- getattr "ta" self_ta ;;
  k <- getattr "step" self_step ;;
  ta' <- call (setitem ta k nu) ;;
  setattr (set_ta ta') ;;
  (* self.step += 1 *)
  k <- getattr "step" self_step ;;
  setattr (set_step (k + 1)).

(** The [while] loop, bounded by [fuel] iterations. *)
Fixpoint while_loop (fuel : nat) : M OrbitPropagator unit :=
  c <- loop_condition ;;
  if c : bool then
    match fuel with
    | O => out_of_fuel
    | Datatypes.S fuel' => loop_body ;; while_loop fuel'
    end
  else ret tt.

(** The number of iterations the loop has left: [n_steps - step]. *)
Definition steps_left (self : OrbitPropagator) : nat :=
  match self_step self, self_n_steps self with
  | Some k, Some n => Z.to_nat (n - k)
  | _, _ => O
  end.

(** [propagate_orbit(self)] *)
Definition propagate_orbit : M OrbitPropagator unit :=
  fun self =>
    (while_loop (steps_left self) ;;
     (* self.rs = self.ys[:,:3] *)
     _ys <- getattr "ys" self_ys ;;
     setattr (set_rs (ColSlice None (Some 3%nat))) ;;
     (* self.vs = self.ys[:,3:] *)
     _ys <- getattr "ys" self_ys ;;
     setattr (set_vs (ColSlice (Some 3%nat) None))) self.

(** *** [__init__] (lines 25-61) *)

(** Lines 27-57: everything [__init__] does before the optional run. *)
Definition configure (state0 : list F) (tspan dt : F)
    (coes deg : bool) (cb : gmap string F)
  : M OrbitPropagator unit :=
  (if coes then
     (* self.r0, self.v0 = t.coes2rv(state0, deg=deg, mu=cb['mu']) *)
     mu <- call (dict_get cb "mu") ;;
     rv <- call (coes2rv state0 deg mu) ;;
     setattr (set_r0 (fst rv)) ;;
     setattr (set_v0 (snd rv))
   else
     (* self.r0 = state0[:3] *)
     setattr (set_r0 (take 3 state0)) ;;
     (* self.r0 = state0[3:] *)
     setattr (set_r0 (drop 3 state0))) ;;
  (* self.y0 = self.r0.tolist() + self.v0.tolist() *)
  r <- getattr "r0" self_r0 ;;
  v <- getattr "v0" self_v0 ;;
  setattr (set_y0 (r ++ v)) ;;
  setattr (set_tspan tspan) ;;
  setattr (set_dt dt) ;;
  setattr (set_cb cb) ;;
  (* self.n_steps = int(np.ceil(self.tspan/self.dt)) *)
  T <- getattr "tspan" self_tspan ;;
  d <- getattr "dt" self_dt ;;
  q <- call (true_div T d) ;;
  n <- call (ceil_int q) ;;
  setattr (set_n_steps n) ;;
  (* self.ys = np.zeros((self.n_steps,6)) *)
  n <- getattr "n_steps" self_n_steps ;;
  ys <- call (np_zeros n (replicate 6 (of_int 0))) ;;
  setattr (set_ys ys) ;;
  (* self.ts = np.zeros((self.n_steps, 1)) *)
  n <- getattr "n_steps" self_n_steps ;;
  ts <- call (np_zeros n (of_int 0)) ;;
  setattr (set_ts ts) ;;
  (* self.ts[0] = 0 *)
  ts <- getattr "ts" self_ts ;;
  ts' <- call (setitem ts 0 (of_int 0)) ;;
  setattr (set_ts ts') ;;
  (* self.ys[0,:] = self.y0 *)
  y0 <- getattr "y0" self_y0 ;;
  ys <- getattr "ys" self_ys ;;
  ys' <- call (setrow ys 0 y0) ;;
  setattr (set_ys ys') ;;
  (* self.step = 1 *)
  setattr (set_step 1) ;;
  (* self.ta = np.zeros((self.n_steps, 1)) *)
  n <- getattr "n_steps" self_n_steps ;;
  ta <- call (np_zeros n (of_int 0)) ;;
  setattr (set_ta ta) ;;
  (* self.ta[0] = t.true_anomaly_r(self.y0) *)
  y0 <- getattr "y0" self_y0 ;;
  nu <- call (true_anomaly_r y0) ;;
  ta <- getattr "ta" self_ta ;;
  ta' <- call (setitem ta 0 nu) ;;
  setattr (set_ta ta') ;;
  (* self.solver = ode(self.diffy_q): the method bound to the instance as
     it is now; the only attribute it reads, cb, is not assigned again *)
  f <- (fun self => (self, Return (diffy_q self))) ;;
  setattr (set_solver (ode f)) ;;
  (* self.solver.set_integrator('lsoda') *)
  s <- getattr "solver" self_solver ;;
  setattr (set_solver (set_integrator s "lsoda")) ;;
  (* self.solver.set_initial_value(self.y0, 0) *)
  s <- getattr "solver" self_solver ;;
  y0 <- getattr "y0" self_y0 ;;
  setattr (set_solver (set_initial_value s y0 (of_int 0))).

Definition __init__ (state0 : list F) (tspan dt : F)
    (coes deg auto_orbit_prop : bool) (cb : gmap string F)
  : M OrbitPropagator unit :=
  configure state0 tspan dt coes deg cb ;;
  (* if auto_orbit_prop: self.propagate_orbit() *)
  if auto_orbit_prop then propagate_orbit else ret tt.

(** [OrbitPropagator(state0, tspan, dt, coes, deg, auto_orbit_prop, cb)]:
    the instance when [__init__] returns, nothing when it raises. *)
Definition new (state0 : list F) (tspan dt : F)
    (coes deg auto_orbit_prop : bool) (cb : gmap string F)
  : outcome OrbitPropagator :=
  match __init__ state0 tspan dt coes deg auto_orbit_prop cb blank with
  | (self, Return _) => Return self
  | (_, Raised e) => Raised e
  | (_, OutOfFuel) => OutOfFuel
  end.
End Propagator.

Arguments blank {F S}.

(** ** Instances of the interfaces *)

(** *** IEEE binary64, the numbers Python and numpy compute with *)

Module Binary64.
(** [float(z)] for an integer below [2^63] in magnitude. *)
Definition float_of_int (z : Z) : float :=
  if z <? 0 then PrimFloat.opp (PrimFloat.of_uint63 (Uint63.of_Z (- z)))
  else PrimFloat.of_uint63 (Uint63.of_Z z).

(** [x ** n] by repeated multiplication.  The C library's [pow] may round
    the last bit differently; the two agree at zero, where it matters
    below. *)
Definition float_pow (x : float) (n : Z) : float :=
  let p := Z.iter (Z.abs n) (fun acc => PrimFloat.mul acc x) 1%float in
  if n <? 0 then PrimFloat.div 1%float p else p.

(** [int(np.ceil(x))]: not-a-number and the infinities do not convert. *)
Definition float_ceil_int (x : float) : exn + Z :=
  match Prim2SF x with
  | S754_nan => inl ValueError
  | S754_infinity _ => inl OverflowError
  | S754_zero _ => inr 0
  | S754_finite s m e =>
      let v := if s then Z.neg m else Z.pos m in
      inr (if 0 <=? e then v * 2 ^ e else - ((- v) / 2 ^ (- e)))
  end.

#[export] Instance binary64 : Scalar float := {
  of_int := float_of_int;
  add := PrimFloat.add;
  neg := PrimFloat.opp;
  mul := PrimFloat.mul;
  true_div x y :=
    if PrimFloat.eqb y 0%float then inl ZeroDivisionError
    else inr (PrimFloat.div x y);
  np_div := PrimFloat.div;
  pow := float_pow;
  sqrt := PrimFloat.sqrt;
  ceil_int := float_ceil_int
}.
End Binary64.

(** *** Exact rationals *)

(** An arithmetic without rounding, overflow or underflow.  It is not the
    program's arithmetic: it serves as a second instance of the interface. *)

Module Exact.
(** A square root in the rationals, rounded down to a multiple of
    [2^-32] of the denominator (exact on squares of such numbers). *)
Definition Qc_sqrt (x : Qc) : Qc :=
  let a := Qnum x in
  let b := Z.pos (Qden x) in
  Q2Qc (Qmake (Z.sqrt (a * b * 2 ^ 64)) (Qden x * 2 ^ 32)).

Definition Qc_pow (x : Qc) (n : Z) : Qc :=
  if n <? 0 then Qcinv (Qcpower x (Z.to_nat (- n)))
  else Qcpower x (Z.to_nat n).

(** There is no non-finite rational: [np_div] by zero takes the value of
    [Qcdiv], which is zero. *)
#[export] Instance rational : Scalar Qc := {
  of_int z := Q2Qc (inject_Z z);
  add := Qcplus;
  neg := Qcopp;
  mul := Qcmult;
  true_div x y :=
    if Qc_eq_dec y (Q2Qc 0) then inl ZeroDivisionError
    else inr (Qcdiv x y);
  np_div := Qcdiv;
  pow := Qc_pow;
  sqrt := Qc_sqrt;
  ceil_int x := inr (Qceiling x)
}.
End Exact.

(** *** A small integrator *)

(** One explicit Euler step per call of [integrate], straight to the
    requested time.  The integrator has a budget of steps; when it is used
    up, [integrate] fails the way [scipy]'s does: [y] and [t] stay where
    they are and [successful()] turns false. *)
Module Euler.
Section Euler.
Context {F : Type} `{!Scalar F}.

Record state : Type := {
  f : F -> list F -> exn + list F;
  y : list F;
  t : F;
  ok : bool;
  budget : nat
}.

Definition step (s : state) (target : F) : exn + state :=
  match budget s with
  | O => inr {| f := f s; y := y s; t := t s; ok := false; budget := O |}
  | Datatypes.S b =>
      match f s (t s) (y s) with
      | inl e => inl e
      | inr dy =>
          let h := add target (neg (t s)) in
          inr {| f := f s;
                 y := zip_with (fun yi di => add yi (mul h di)) (y s) dy;
                 t := target; ok := true; budget := b |}
      end
  end.

Definition solver (steps : nat) : OdeSolver F state := {|
  ode g := {| f := g; y := []; t := of_int 0; ok := true; budget := steps |};
  set_integrator s _ := s;
  set_initial_value s y0 t0 :=
    {| f := f s; y := y0; t := t0; ok := ok s; budget := budget s |};
  integrate := step;
  sol_t := t;
  sol_y := y;
  successful := ok
|}.
End Euler.
End Euler.

(** *** Stand-ins for [tools] *)

(** [tools.py] is not part of the file under study.  Where a statement is
    evaluated on a concrete input, these stand in for its two functions:
    the first reads the six numbers as a Cartesian state, the second
    returns the first component of the state. *)
Module Standin.
Definition coes2rv {F : Type} (state0 : list F) (deg : bool) (mu : F)
  : exn + (list F * list F) :=
  inr (take 3 state0, drop 3 state0).

Definition true_anomaly_r {F : Type} (state : list F) : exn + F :=
  match state with
  | x :: _ => inr x
  | [] => inl ValueError
  end.
End Standin.

(** * Properties *)

(** ** Arrays *)

Section ArrayFacts.
Context {A : Type}.
Implicit Types (a : list A) (i : Z) (k : nat).

Lemma norm_index_nonneg (len : nat) i k :
  0 <= i -> norm_index len i = inr k -> k = Z.to_nat i /\ (k < len)%nat.
Proof.
  unfold norm_index. intros Hi.
  destruct (0 <=? i) eqn:H0; [|lia].
  destruct (i <? Z.of_nat len) eqn:H1; simpl.
  - intros [= <-]. lia.
  - destruct (- Z.of_nat len <=? i); simpl; [|discriminate].
    destruct (i <? 0) eqn:H2; [lia|discriminate].
Qed.

Lemma norm_index_in_range (len : nat) i :
  0 <= i < Z.of_nat len -> norm_index len i = inr (Z.to_nat i).
Proof.
  intros [H0 H1]. unfold norm_index.
  destruct (0 <=? i) eqn:E0; [|lia].
  destruct (i <? Z.of_nat len) eqn:E1; [reflexivity|lia].
Qed.

Lemma norm_index_lt (len : nat) i k : norm_index len i = inr k -> (k < len)%nat.
Proof.
  unfold norm_index.
  destruct ((0 <=? i) && (i <? Z.of_nat len)) eqn:E.
  - intros [= <-]. apply andb_true_iff in E as [E0 E1]. lia.
  - destruct ((- Z.of_nat len <=? i) && (i <? 0)) eqn:E'; [|discriminate].
    intros [= <-]. apply andb_true_iff in E' as [E0 E1]. lia.
Qed.

Lemma setitem_length a i x a' : setitem a i x = inr a' -> length a' = length a.
Proof.
  unfold setitem. destruct (norm_index (length a) i); [discriminate|].
  intros [= <-]. apply length_insert.
Qed.

(** Writing at a non-negative index leaves every lower index alone. *)
Lemma setitem_below a i x a' k :
  setitem a i x = inr a' -> 0 <= i -> (Z.of_nat k < i) -> a' !! k = a !! k.
Proof.
  unfold setitem. destruct (norm_index (length a) i) as [|j] eqn:E; [discriminate|].
  intros [= <-] Hi Hk. apply norm_index_nonneg in E as [-> _]; [|assumption].
  apply list_lookup_insert_ne. lia.
Qed.

Lemma setitem_at a i x a' :
  setitem a i x = inr a' -> 0 <= i -> a' !! Z.to_nat i = Some x.
Proof.
  unfold setitem. destruct (norm_index (length a) i) as [|j] eqn:E; [discriminate|].
  intros [= <-] Hi. apply norm_index_nonneg in E as [-> Hlt]; [|assumption].
  apply list_lookup_insert_eq. assumption.
Qed.

Lemma setitem_in_range a i x :
  0 <= i < Z.of_nat (length a) -> setitem a i x = inr (<[Z.to_nat i := x]> a).
Proof. intros H. unfold setitem. rewrite norm_index_in_range; auto. Qed.

Lemma np_zeros_nonneg (n : Z) (x : A) :
  0 <= n -> np_zeros n x = inr (replicate (Z.to_nat n) x).
Proof. intros H. unfold np_zeros. destruct (n <? 0) eqn:E; [lia|reflexivity]. Qed.

Lemma setrow_length (m : list (list A)) i v m' :
  setrow m i v = inr m' -> length m' = length m.
Proof.
  unfold setrow. destruct (norm_index (length m) i); [discriminate|].
  destruct (m !! n); [|discriminate].
  destruct (broadcast_row (length l) v); [discriminate|].
  intros [= <-]. apply length_insert.
Qed.

Lemma setrow_below (m : list (list A)) i v m' k :
  setrow m i v = inr m' -> 0 <= i -> (Z.of_nat k < i) -> m' !! k = m !! k.
Proof.
  unfold setrow. destruct (norm_index (length m) i) as [|j] eqn:E; [discriminate|].
  destruct (m !! j); [|discriminate].
  destruct (broadcast_row (length l) v); [discriminate|].
  intros [= <-] Hi Hk. apply norm_index_nonneg in E as [-> _]; [|assumption].
  apply list_lookup_insert_ne. lia.
Qed.

Lemma broadcast_row_same (v : list A) : broadcast_row (length v) v = inr v.
Proof. unfold broadcast_row. rewrite bool_decide_eq_true_2; reflexivity. Qed.
End ArrayFacts.

(** ** The stepping loop *)

(** Runs the next test of a computation in the monad, on both branches. *)
Ltac mstep :=
  match goal with
  | |- context [match ?x with _ => _ end] =>
      lazymatch x with
      | context [match _ with _ => _ end] => fail
      | _ => destruct x eqn:?; simpl in *
      end
  end.

Ltac munfold :=
  unfold bind, getattr, setattr, call, ret, raise, out_of_fuel in *; simpl in *.

Section LoopFacts.
Context {F S : Type} `{!Scalar F} `{!OdeSolver F S}.
Variable true_anomaly_r : list F -> exn + F.

Local Abbreviation Obj := (@OrbitPropagator F S).

(** Two arrays agree below index [k]: same length, same entries there. *)
Definition agree_below {A : Type} (k : Z) (before after : option (list A)) : Prop :=
  match before, after with
  | Some a, Some b =>
      length b = length a /\ forall i : nat, Z.of_nat i < k -> b !! i = a !! i
  | None, None => True
  | _, _ => False
  end.

Lemma agree_below_refl {A : Type} k (a : option (list A)) : agree_below k a a.
Proof. destruct a; simpl; auto. Qed.

Lemma agree_below_trans {A : Type} k k' (a b c : option (list A)) :
  k <= k' -> agree_below k a b -> agree_below k' b c -> agree_below k a c.
Proof.
  destruct a, b, c; simpl; try tauto.
  intros Hk [Hl1 H1] [Hl2 H2]. split; [congruence|].
  intros i Hi. rewrite H2 by lia. auto.
Qed.

(** What a run of the loop, complete or cut short by an exception, leaves
    alone when it starts at step [k]: the configuration, the size of the
    three arrays, and their entries below [k]. *)
Record frame (k : Z) (self self' : Obj) : Prop := {
  fr_r0 : self_r0 self' = self_r0 self;
  fr_v0 : self_v0 self' = self_v0 self;
  fr_y0 : self_y0 self' = self_y0 self;
  fr_tspan : self_tspan self' = self_tspan self;
  fr_dt : self_dt self' = self_dt self;
  fr_cb : self_cb self' = self_cb self;
  fr_n_steps : self_n_steps self' = self_n_steps self;
  fr_ts : agree_below k (self_ts self) (self_ts self');
  fr_ys : agree_below k (self_ys self) (self_ys self');
  fr_ta : agree_below k (self_ta self) (self_ta self')
}.

Lemma frame_refl k self : frame k self self.
Proof. split; auto using agree_below_refl. Qed.

Lemma frame_trans k k' a b c :
  k <= k' -> frame k a b -> frame k' b c -> frame k a c.
Proof.
  intros Hk [] []. split; try congruence; eauto using agree_below_trans.
Qed.

(** The loop condition reads and changes nothing; the attribute
    [successful] being a method, the test is [step < n_steps]. *)
Lemma loop_condition_eq (self : Obj) s k n :
  self_solver self = Some s -> self_step self = Some k ->
  self_n_steps self = Some n ->
  loop_condition self = (self, Return (k <? n)).
Proof.
  intros Hs Hk Hn. unfold loop_condition. munfold.
  rewrite Hs. simpl. rewrite Hk, Hn. reflexivity.
Qed.

Lemma loop_condition_state (self : Obj) : fst (loop_condition self) = self.
Proof.
  unfold loop_condition. munfold. repeat mstep; reflexivity.
Qed.

Lemma loop_condition_return (self : Obj) self' b :
  loop_condition self = (self', Return b) ->
  self' = self /\ exists s k n, self_solver self = Some s /\
    self_step self = Some k /\ self_n_steps self = Some n /\ b = (k <? n).
Proof.
  unfold loop_condition. munfold. repeat mstep; intros [= <- <-]; split; eauto 10.
Qed.

(** One full iteration, as a function of the state it starts from. *)
Lemma loop_body_return (self self' : Obj) :
  loop_body true_anomaly_r self = (self', Return tt) ->
  exists s d s1 ts k ts1 ys ys1 row nu ta ta1,
    self_solver self = Some s /\ self_dt self = Some d /\
    integrate s (add (sol_t s) d) = inr s1 /\
    self_ts self = Some ts /\ self_step self = Some k /\
    setitem ts k (sol_t s1) = inr ts1 /\
    self_ys self = Some ys /\ setrow ys k (sol_y s1) = inr ys1 /\
    getitem ys1 k = inr row /\ true_anomaly_r row = inr nu /\
    self_ta self = Some ta /\ setitem ta k nu = inr ta1 /\
    self' = set_step (k + 1)
              (set_ta ta1 (set_ys ys1 (set_ts ts1 (set_solver s1 self)))).
Proof.
  unfold loop_body. munfold.
  repeat mstep; intros [= <-]; simplify_eq.
  repeat eexists; eauto.
Qed.
Lemma agree_below_setitem {A : Type} k (a a' : list A) x (o : option (list A)) :
  o = Some a -> setitem a k x = inr a' -> 0 <= k -> agree_below k o (Some a').
Proof.
  intros -> Hs Hk. simpl. split; [eapply setitem_length; eauto|].
  intros i Hi. eapply setitem_below; eauto.
Qed.

Lemma agree_below_setrow {A : Type} k (a a' : list (list A)) v
    (o : option (list (list A))) :
  o = Some a -> setrow a k v = inr a' -> 0 <= k -> agree_below k o (Some a').
Proof.
  intros -> Hs Hk. simpl. split; [eapply setrow_length; eauto|].
  intros i Hi. eapply setrow_below; eauto.
Qed.

Lemma agree_below_same {A : Type} k (a : list A) (o : option (list A)) :
  o = Some a -> agree_below k o (Some a).
Proof. intros ->. simpl. auto. Qed.

(** One iteration started at step [k], complete or not, respects the frame
    and moves the step counter by at most one. *)
Lemma loop_body_frame (self : Obj) k :
  self_step self = Some k -> 0 <= k ->
  frame k self (fst (loop_body true_anomaly_r self)) /\
  (self_step (fst (loop_body true_anomaly_r self)) = Some k \/
   self_step (fst (loop_body true_anomaly_r self)) = Some (k + 1)).
Proof.
  intros Hk H0. unfold loop_body. munfold.
  repeat mstep; simplify_eq;
    (split; [split; simpl; try reflexivity;
             eauto using agree_below_refl, agree_below_setitem,
               agree_below_setrow, agree_below_same
            | simpl; auto]).
Qed.
Lemma while_loop_unfold fuel (self : Obj) :
  while_loop true_anomaly_r fuel self =
  match loop_condition self with
  | (s, Return true) =>
      match fuel with
      | O => (s, OutOfFuel)
      | Datatypes.S fuel' =>
          match loop_body true_anomaly_r s with
          | (s1, Return _) => while_loop true_anomaly_r fuel' s1
          | (s1, Raised e) => (s1, Raised e)
          | (s1, OutOfFuel) => (s1, OutOfFuel)
          end
      end
  | (s, Return false) => (s, Return tt)
  | (s, Raised e) => (s, Raised e)
  | (s, OutOfFuel) => (s, OutOfFuel)
  end.
Proof.
  destruct fuel; simpl; unfold bind;
    destruct (loop_condition self) as [s [[]| |]]; reflexivity.
Qed.

Lemma loop_condition_not_out_of_fuel (self : Obj) :
  snd (loop_condition self) <> OutOfFuel.
Proof. unfold loop_condition. munfold. repeat mstep; discriminate. Qed.

Lemma loop_body_not_out_of_fuel (self : Obj) :
  snd (loop_body true_anomaly_r self) <> OutOfFuel.
Proof. unfold loop_body. munfold. repeat mstep; discriminate. Qed.

(** The loop respects the frame of the step it starts at, and never moves
    the step counter back. *)
Lemma while_loop_frame fuel : forall (self : Obj) k,
  self_step self = Some k -> 0 <= k ->
  frame k self (fst (while_loop true_anomaly_r fuel self)) /\
  exists k', self_step (fst (while_loop true_anomaly_r fuel self)) = Some k' /\ k <= k'.
Proof.
  induction fuel as [|fuel IH]; intros self k Hk H0; rewrite while_loop_unfold;
    pose proof (loop_condition_state self) as Hc;
    destruct (loop_condition self) as [s0 oc]; simpl in Hc; subst s0.
  - destruct oc as [[]| |]; simpl;
      (split; [apply frame_refl|exists k; split; [assumption|lia]]).
  - destruct oc as [[]| |]; simpl;
      try (split; [apply frame_refl|exists k; split; [assumption|lia]]).
    destruct (loop_body_frame self k Hk H0) as [Hf Hs].
    destruct (loop_body true_anomaly_r self) as [s1 [[]| |]]; simpl in *;
      try (split; [assumption|destruct Hs as [Hs|Hs]; eexists; (split; [exact Hs|lia])]).
    destruct Hs as [Hs|Hs].
    + destruct (IH s1 k Hs H0) as [Hf1 (k' & Hk' & Hle)].
      split; [eapply frame_trans; [|eassumption|eassumption]; lia|eauto].
    + destruct (IH s1 (k + 1) Hs ltac:(lia)) as [Hf1 (k' & Hk' & Hle)].
      split; [eapply frame_trans; [|eassumption|eassumption]; lia|].
      exists k'. split; [assumption|lia].
Qed.

(** The loop ends within [n_steps - step] iterations. *)
Lemma while_loop_terminates fuel : forall (self : Obj),
  (steps_left self <= fuel)%nat ->
  snd (while_loop true_anomaly_r fuel self) <> OutOfFuel.
Proof.
  induction fuel as [|fuel IH]; intros self Hfuel; rewrite while_loop_unfold;
    pose proof (loop_condition_not_out_of_fuel self) as Hn;
    destruct (loop_condition self) as [s0 oc] eqn:Hc; simpl in Hn;
    destruct oc as [b| |]; try discriminate; try contradiction;
    apply loop_condition_return in Hc as [-> (s & k & n & Hs & Hk & Hnn & ->)];
    destruct (k <? n) eqn:Hlt; try discriminate;
    unfold steps_left in Hfuel; rewrite Hk, Hnn in Hfuel.
  - lia.
  - pose proof (loop_body_not_out_of_fuel self) as Hb.
    destruct (loop_body true_anomaly_r self) as [s1 [[]| |]] eqn:Hbody; simpl in Hb;
      try discriminate; try contradiction.
    apply IH.
    apply loop_body_return in Hbody
      as (? & ? & ? & ? & k1 & ? & ? & ? & ? & ? & ? & ? & ? & ? & ? & ? & Hk1 & ? & ? & ? & ? & ? & ? & ? & ->).
    unfold steps_left. simpl. rewrite Hnn. rewrite Hk in Hk1. simplify_eq. lia.
Qed.

(** When the loop returns, its condition is false for one reason only: the
    step counter has reached [n_steps]. *)
Lemma while_loop_exit fuel : forall (self self' : Obj),
  while_loop true_anomaly_r fuel self = (self', Return tt) ->
  exists s k n, self_solver self' = Some s /\ self_step self' = Some k /\
    self_n_steps self' = Some n /\ n <= k.
Proof.
  induction fuel as [|fuel IH]; intros self self'; rewrite while_loop_unfold;
    destruct (loop_condition self) as [s0 oc] eqn:Hc;
    destruct oc as [b| |]; try discriminate;
    apply loop_condition_return in Hc as [-> (s & k & n & Hs & Hk & Hnn & ->)];
    destruct (k <? n) eqn:Hlt; try discriminate;
    try (intros [= <-]; exists s, k, n; repeat split; auto; lia).
  destruct (loop_body true_anomaly_r self) as [s1 [[]| |]]; try discriminate.
  apply IH.
Qed.
(** One call of the integrator as the loop makes it: from the solver's own
    current time, one output interval further. *)
Definition advance (d : F) (s : S) : exn + S := integrate s (add (sol_t s) d).

(** [j] such calls in a row, each starting from the solver the previous one
    left. *)
Fixpoint advance_n (d : F) (j : nat) (s : S) : exn + S :=
  match j with
  | O => inr s
  | Datatypes.S j' =>
      match advance d s with
      | inl e => inl e
      | inr s' => advance_n d j' s'
      end
  end.

Lemma advance_n_snoc d j : forall s s' s'',
  advance_n d j s = inr s' -> advance d s' = inr s'' ->
  advance_n d (Datatypes.S j) s = inr s''.
Proof.
  induction j as [|j IH]; intros s s' s'' Hj Ha; simpl in *.
  - simplify_eq. rewrite Ha. reflexivity.
  - destruct (advance d s) as [|s1]; [discriminate|]. eapply IH; eauto.
Qed.

Lemma advance_n_last d j : forall s s'',
  advance_n d (Datatypes.S j) s = inr s'' ->
  exists s', advance_n d j s = inr s' /\ advance d s' = inr s''.
Proof.
  induction j as [|j IH]; intros s s'' H.
  - simpl in H. destruct (advance d s) as [|s1] eqn:E; [discriminate|].
    exists s. simpl. split; congruence.
  - change (advance_n d (Datatypes.S (Datatypes.S j)) s)
      with (match advance d s with
            | inl e => inl e
            | inr s1 => advance_n d (Datatypes.S j) s1
            end) in H.
    destruct (advance d s) as [|s1] eqn:E; [discriminate|].
    destruct (IH _ _ H) as (s' & H1 & H2).
    exists s'. split; [|assumption]. simpl. rewrite E. assumption.
Qed.

(** The samples a run of the loop has recorded: started at step [k] with
    solver [s], it leaves the step counter at some [k'], the solver [j]
    calls further, and at every index [i] from [k] to [k' - 1] the time of
    the solver after [i - k + 1] calls. *)
Definition trace (k : Z) (s : S) (d : F) (self' : Obj) (o : outcome unit) : Prop :=
  exists k' j s',
    self_step self' = Some k' /\ k <= k' /\
    self_solver self' = Some s' /\ advance_n d j s = inr s' /\
    (Z.of_nat j = k' - k \/ (Z.of_nat j = k' - k + 1 /\ exists e, o = Raised e)) /\
    (o = Return tt -> Z.of_nat j = k' - k) /\
    forall i : nat, k <= Z.of_nat i < k' ->
      exists s_i ts, advance_n d (Z.to_nat (Z.of_nat i - k + 1)) s = inr s_i /\
        self_ts self' = Some ts /\ ts !! i = Some (sol_t s_i).

Lemma loop_body_trace (self self' : Obj) o s d k :
  loop_body true_anomaly_r self = (self', o) ->
  self_solver self = Some s -> self_dt self = Some d ->
  self_step self = Some k ->
  (o = Return tt /\ exists s1, advance d s = inr s1 /\ self_solver self' = Some s1) \/
  ((exists e, o = Raised e) /\ self_step self' = Some k /\
   (self_solver self' = Some s \/
    exists s1, advance d s = inr s1 /\ self_solver self' = Some s1)).
Proof.
  intros Hb Hs Hd Hk. revert Hb. unfold loop_body, advance. munfold.
  rewrite Hs, Hd. simpl.
  repeat mstep; intros [= <- <-]; simplify_eq; simpl; eauto 10.
Qed.

Lemma while_loop_trace fuel : forall (self self' : Obj) o s d k,
  while_loop true_anomaly_r fuel self = (self', o) ->
  self_solver self = Some s -> self_dt self = Some d ->
  self_step self = Some k -> 0 <= k ->
  trace k s d self' o.
Proof.
  induction fuel as [|fuel IH]; intros self self' o s d k; rewrite while_loop_unfold;
    pose proof (loop_condition_state self) as Hc;
    destruct (loop_condition self) as [s0 oc]; simpl in Hc; subst s0;
    intros Hw Hs Hd Hk H0.
  - assert (self' = self) as -> by (destruct oc as [[]| |]; congruence).
    exists k, O, s. repeat split; auto; try lia; try (intros; lia).
  - destruct oc as [[]| |];
      try (assert (self' = self) as -> by congruence;
           exists k, O, s; repeat split; auto; try lia; try (intros; lia)).
    destruct (loop_body true_anomaly_r self) as [s1 o1] eqn:Hbody.
    pose proof (loop_body_trace _ _ _ _ _ _ Hbody Hs Hd Hk) as Ht.
    destruct Ht as [[-> (sv1 & Ha & Hs1)]|[(e & ->) (Hk1 & Hsol)]].
    + pose proof Hbody as Hret.
      apply loop_body_return in Hret
        as (s_ & d_ & s1_ & ts & k_ & ts1 & ys & ys1 & row & nu & ta & ta1 &
            Es & Ed & Ei & Ets & Ek & Eset & _ & _ & _ & _ & _ & _ & ->).
      rewrite Hs in Es. rewrite Hd in Ed. rewrite Hk in Ek.
      injection Es as <-. injection Ed as <-. injection Ek as <-.
      unfold advance in Ha. rewrite Ei in Ha. injection Ha as <-.
      specialize (IH _ _ _ s1_ d (k + 1) Hw eq_refl Hd eq_refl ltac:(lia)).
      destruct IH as (k' & j & s' & Hk' & Hle & Hs' & Hadv & Hj & Hjr & Hrec).
      pose proof (while_loop_frame fuel _ (k + 1) (eq_refl : self_step
        (set_step (k + 1) (set_ta ta1 (set_ys ys1 (set_ts ts1 (set_solver s1_ self)))))
        = Some (k + 1)) ltac:(lia)) as [Hfr _].
      rewrite Hw in Hfr. simpl in Hfr.
      exists k', (Datatypes.S j), s'. repeat split; auto; try lia.
      * simpl. unfold advance. rewrite Ei. assumption.
      * destruct Hj as [Hj|[Hj He]]; [left|right; split; auto]; lia.
      * intros Ho. specialize (Hjr Ho). lia.
      * intros i Hi. destruct (decide (Z.of_nat i = k)) as [Heq|Hne].
        -- destruct Hfr as [_ _ _ _ _ _ _ Hts _ _]. simpl in Hts.
           destruct (self_ts self') as [ts'|] eqn:Ets'; [|contradiction].
           destruct Hts as [_ Hts].
           exists s1_, ts'. replace (Z.to_nat (Z.of_nat i - k + 1)) with 1%nat by lia.
           simpl. unfold advance. rewrite Ei. repeat split; auto.
           rewrite Hts by lia.
           replace i with (Z.to_nat k) by lia. eapply setitem_at; eauto.
        -- destruct (Hrec i ltac:(lia)) as (s_i & ts' & Hadvi & Hts' & Hlook).
           exists s_i, ts'. repeat split; auto.
           replace (Z.to_nat (Z.of_nat i - k + 1))
             with (Datatypes.S (Z.to_nat (Z.of_nat i - (k + 1) + 1))) by lia.
           simpl. unfold advance. rewrite Ei. assumption.
    + simplify_eq.
      destruct Hsol as [Hsol|(sv1 & Ha & Hsol)].
      * exists k, O, s.
        repeat split; auto; try lia; try discriminate; try (intros; lia).
      * exists k, 1%nat, sv1.
        repeat split; auto; try lia; try discriminate; try (intros; lia).
        -- simpl. rewrite Ha. reflexivity.
        -- right. split; [lia|eauto].
Qed.
(** The step counter never passes [n_steps] (unless it started beyond). *)
Lemma while_loop_step_bound fuel : forall (self : Obj) k n,
  self_step self = Some k -> self_n_steps self = Some n -> 0 <= k ->
  exists k', self_step (fst (while_loop true_anomaly_r fuel self)) = Some k' /\
    k' <= Z.max k n.
Proof.
  induction fuel as [|fuel IH]; intros self k n Hk Hn H0; rewrite while_loop_unfold;
    destruct (loop_condition self) as [s0 oc] eqn:Hc;
    pose proof (loop_condition_state self) as Hst; rewrite Hc in Hst;
    simpl in Hst; subst s0.
  - destruct oc as [[]| |]; simpl; exists k; split; auto; lia.
  - destruct oc as [[]| |]; simpl; try (exists k; split; auto; lia).
    apply loop_condition_return in Hc as [_ (s & k_ & n_ & Hs & Hk_ & Hn_ & Hb)].
    rewrite Hk in Hk_. rewrite Hn in Hn_.
    injection Hk_ as <-. injection Hn_ as <-.
    symmetry in Hb. apply Z.ltb_lt in Hb.
    destruct (loop_body_frame self k Hk H0) as [Hf Hs1].
    destruct (loop_body true_anomaly_r self) as [s1 [[]| |]] eqn:Hbody; simpl in *;
      try (destruct Hs1 as [Hs1|Hs1]; (eexists; split; [exact Hs1|lia])).
    assert (self_n_steps s1 = Some n) as Hn1 by (destruct Hf; congruence).
    destruct Hs1 as [Hs1|Hs1].
    + destruct (IH s1 k n Hs1 Hn1 H0) as (k' & Hk' & Hle). eauto.
    + destruct (IH s1 (k + 1) n Hs1 Hn1 ltac:(lia)) as (k' & Hk' & Hle).
      exists k'. split; [assumption|lia].
Qed.

(** *** [propagate_orbit] as a whole *)

Lemma propagate_orbit_unfold (self : Obj) :
  propagate_orbit true_anomaly_r self =
  match while_loop true_anomaly_r (steps_left self) self with
  | (s1, Return _) =>
      match self_ys s1 with
      | Some _ => (set_vs (ColSlice (Some 3%nat) None)
                     (set_rs (ColSlice None (Some 3%nat)) s1), Return tt)
      | None => (s1, Raised (AttributeError "ys"))
      end
  | (s1, Raised e) => (s1, Raised e)
  | (s1, OutOfFuel) => (s1, OutOfFuel)
  end.
Proof.
  unfold propagate_orbit. munfold.
  destruct (while_loop true_anomaly_r (steps_left self) self) as [s1 [[]| |]];
    try reflexivity.
  simpl. destruct (self_ys s1) eqn:E; simpl; rewrite ?E; reflexivity.
Qed.

(** [propagate_orbit] always ends: the fuel it gives its loop suffices. *)
Lemma propagate_orbit_terminates (self : Obj) :
  snd (propagate_orbit true_anomaly_r self) <> OutOfFuel.
Proof.
  rewrite propagate_orbit_unfold.
  pose proof (while_loop_terminates (steps_left self) self (le_n _)) as H.
  destruct (while_loop true_anomaly_r (steps_left self) self) as [s1 [[]| |]];
    simpl in *; try discriminate; try contradiction.
  destruct (self_ys s1); discriminate.
Qed.

Lemma propagate_orbit_frame (self : Obj) k :
  self_step self = Some k -> 0 <= k ->
  frame k self (fst (propagate_orbit true_anomaly_r self)) /\
  exists k', self_step (fst (propagate_orbit true_anomaly_r self)) = Some k' /\ k <= k'.
Proof.
  intros Hk H0. rewrite propagate_orbit_unfold.
  destruct (while_loop_frame (steps_left self) self k Hk H0) as [Hf Hs].
  destruct (while_loop true_anomaly_r (steps_left self) self) as [s1 [[]| |]];
    simpl in *; auto.
  destruct (self_ys s1) eqn:E; simpl; auto.
  split; [|exact Hs]. destruct Hf; split; simpl; auto.
Qed.

Lemma propagate_orbit_trace (self self' : Obj) o s d k :
  propagate_orbit true_anomaly_r self = (self', o) ->
  self_solver self = Some s -> self_dt self = Some d ->
  self_step self = Some k -> 0 <= k ->
  trace k s d self' o.
Proof.
  rewrite propagate_orbit_unfold. intros Hp Hs Hd Hk H0.
  destruct (while_loop true_anomaly_r (steps_left self) self) as [s1 o1] eqn:Hw.
  pose proof (while_loop_trace _ _ _ _ _ _ _ Hw Hs Hd Hk H0) as Ht.
  destruct o1 as [[]| |]; try (injection Hp as <- <-; exact Ht).
  destruct (self_ys s1); injection Hp as <- <-.
  - exact Ht.
  - destruct Ht as (k' & j & s' & H1 & H2 & H3 & H4 & H5 & H6 & H7).
    exists k', j, s'. repeat split; auto; try discriminate.
Qed.

(** When [propagate_orbit] returns, the step counter has reached
    [n_steps]. *)
Lemma propagate_orbit_return (self self' : Obj) :
  propagate_orbit true_anomaly_r self = (self', Return tt) ->
  exists s1 s k n ys,
    while_loop true_anomaly_r (steps_left self) self = (s1, Return tt) /\
    self' = set_vs (ColSlice (Some 3%nat) None)
              (set_rs (ColSlice None (Some 3%nat)) s1) /\
    self_solver s1 = Some s /\ self_step s1 = Some k /\
    self_n_steps s1 = Some n /\ n <= k /\ self_ys s1 = Some ys.
Proof.
  rewrite propagate_orbit_unfold.
  destruct (while_loop true_anomaly_r (steps_left self) self) as [s1 [[]| |]] eqn:Hw;
    try discriminate.
  destruct (self_ys s1) as [ys|] eqn:Hys; [|discriminate].
  intros [= <-].
  destruct (while_loop_exit _ _ _ Hw) as (s & k & n & Hs & Hk & Hn & Hle).
  exists s1, s, k, n, ys. auto 10.
Qed.
End LoopFacts.

(** ** The constructor *)

Section InitFacts.
Context {F S : Type} `{!Scalar F} `{!OdeSolver F S}.
Variable coes2rv : list F -> bool -> F -> exn + (list F * list F).
Variable true_anomaly_r : list F -> exn + F.

Local Abbreviation Obj := (@OrbitPropagator F S).

Lemma setrow_in_range (m : list (list F)) (i : Z) (v old : list F) :
  0 <= i < Z.of_nat (length m) -> m !! Z.to_nat i = Some old ->
  length v = length old ->
  setrow m i v = inr (<[Z.to_nat i := v]> m).
Proof.
  intros Hi Ho Hl. unfold setrow. rewrite norm_index_in_range by assumption.
  rewrite Ho, <- Hl, broadcast_row_same. reflexivity.
Qed.

(** The instance [configure] builds from orbital elements when every step
    succeeds: [n] samples allocated, sample 0 filled in, the step counter
    at 1, and a solver created, given its integrator and initialised
    once.  [row] is the initial state as broadcast into row 0. *)
Definition configured (r v row : list F) (tspan dt : F) (cb : gmap string F)
    (n : Z) (nu : F) : Obj :=
  {| self_r0 := Some r; self_v0 := Some v; self_y0 := Some (r ++ v);
     self_tspan := Some tspan; self_dt := Some dt; self_cb := Some cb;
     self_n_steps := Some n;
     self_ys := Some (<[O := row]> (replicate (Z.to_nat n) (replicate 6 (of_int 0))));
     self_ts := Some (<[O := of_int 0]> (replicate (Z.to_nat n) (of_int 0)));
     self_step := Some 1;
     self_ta := Some (<[O := nu]> (replicate (Z.to_nat n) (of_int 0)));
     self_solver :=
       Some (set_initial_value
               (set_integrator (ode (diffy_q (set_cb cb (@blank F S)))) "lsoda")
               (r ++ v) (of_int 0));
     self_rs := None; self_vs := None |}.

(** The calls and tests of [configure] on the orbital-elements path, in the
    order the source makes them, with what each can raise. *)
Definition init_plan (state0 : list F) (tspan dt : F) (deg : bool)
    (cb : gmap string F) : exn + (list F * list F * list F * Z * F) :=
  match dict_get cb "mu" with
  | inl e => inl e
  | inr mu =>
  match coes2rv state0 deg mu with
  | inl e => inl e
  | inr (r, v) =>
  match true_div tspan dt with
  | inl e => inl e
  | inr q =>
  match ceil_int q with
  | inl e => inl e
  | inr n =>
  if n <? 0 then inl ValueError
  else if n =? 0 then inl IndexError
  else
  match broadcast_row 6 (r ++ v) with
  | inl e => inl e
  | inr row =>
  match true_anomaly_r (r ++ v) with
  | inl e => inl e
  | inr nu => inr (r, v, row, n, nu)
  end end end end end end.

(** [configure] on the orbital-elements path does what [init_plan] says. *)
Lemma configure_coes_eq state0 tspan dt deg cb :
  match init_plan state0 tspan dt deg cb with
  | inr (r, v, row, n, nu) =>
      configure coes2rv true_anomaly_r state0 tspan dt true deg cb blank
      = (configured r v row tspan dt cb n nu, Return tt)
  | inl e =>
      snd (configure coes2rv true_anomaly_r state0 tspan dt true deg cb blank)
      = Raised e
  end.
Proof.
  unfold init_plan, configure. munfold.
  destruct (dict_get cb "mu") as [e|mu]; simpl; [reflexivity|].
  destruct (coes2rv state0 deg mu) as [e|[r v]]; simpl; [reflexivity|].
  destruct (true_div tspan dt) as [e|q]; simpl; [reflexivity|].
  destruct (ceil_int q) as [e|n]; simpl; [reflexivity|].
  destruct (n <? 0) eqn:Hneg.
  { unfold np_zeros. rewrite Hneg. reflexivity. }
  destruct (n =? 0) eqn:Hzero.
  { apply Z.eqb_eq in Hzero as ->. reflexivity. }
  destruct (broadcast_row 6 (r ++ v)) as [e|row] eqn:Hbr;
    (destruct (true_anomaly_r (r ++ v)) as [e'|nu] eqn:Hnu);
    rewrite np_zeros_nonneg by lia; simpl;
    rewrite np_zeros_nonneg by lia; simpl;
    rewrite setitem_in_range by (rewrite length_replicate; lia); simpl;
    unfold setrow; rewrite norm_index_in_range by (rewrite length_replicate; lia);
    rewrite lookup_replicate_2 by lia; cbn [length];
    rewrite Hbr; simpl; try reflexivity;
    rewrite np_zeros_nonneg by lia; simpl;
    rewrite Hnu; simpl; try reflexivity.
  rewrite setitem_in_range by (rewrite length_replicate; lia). simpl.
  reflexivity.
Qed.

(** The raw-state path: [r0] is assigned twice, [v0] never, and reading
    [v0] on the next line raises. *)
Lemma configure_raw state0 tspan dt deg cb :
  configure coes2rv true_anomaly_r state0 tspan dt false deg cb blank
  = (set_r0 (drop 3 state0) (set_r0 (take 3 state0) blank),
     Raised (AttributeError "v0")).
Proof. reflexivity. Qed.

Lemma new_unfold state0 tspan dt coes deg auto cb :
  new coes2rv true_anomaly_r state0 tspan dt coes deg auto cb =
  match configure coes2rv true_anomaly_r state0 tspan dt coes deg cb blank with
  | (self, Return _) =>
      if auto then
        match propagate_orbit true_anomaly_r self with
        | (self', Return _) => Return self'
        | (_, Raised e) => Raised e
        | (_, OutOfFuel) => OutOfFuel
        end
      else Return self
  | (_, Raised e) => Raised e
  | (_, OutOfFuel) => OutOfFuel
  end.
Proof.
  unfold new, __init__, bind.
  destruct (configure coes2rv true_anomaly_r state0 tspan dt coes deg cb blank)
    as [self [[]| |]]; try reflexivity.
  destruct auto; reflexivity.
Qed.

(** An instance exists only if [configure] went through on the
    orbital-elements path. *)
Lemma new_return state0 tspan dt coes deg auto cb self :
  new coes2rv true_anomaly_r state0 tspan dt coes deg auto cb = Return self ->
  coes = true /\
  exists r v row n nu,
    init_plan state0 tspan dt deg cb = inr (r, v, row, n, nu) /\
    if auto then
      propagate_orbit true_anomaly_r (configured r v row tspan dt cb n nu)
      = (self, Return tt)
    else self = configured r v row tspan dt cb n nu.
Proof.
  rewrite new_unfold. destruct coes.
  - pose proof (configure_coes_eq state0 tspan dt deg cb) as H.
    destruct (init_plan state0 tspan dt deg cb) as [e|[[[[r v] row] n] nu]].
    + destruct (configure coes2rv true_anomaly_r state0 tspan dt true deg cb blank)
        as [s o]; simpl in H; subst o. discriminate.
    + rewrite H. intros Hret. split; [reflexivity|].
      exists r, v, row, n, nu. split; [reflexivity|].
      destruct auto.
      * destruct (propagate_orbit true_anomaly_r
                    (configured r v row tspan dt cb n nu)) as [s' [[]| |]];
          congruence.
      * congruence.
  - rewrite configure_raw. discriminate.
Qed.

Lemma init_plan_inv state0 tspan dt deg cb r v row n nu :
  init_plan state0 tspan dt deg cb = inr (r, v, row, n, nu) ->
  exists mu q,
    dict_get cb "mu" = inr mu /\ coes2rv state0 deg mu = inr (r, v) /\
    true_div tspan dt = inr q /\ ceil_int q = inr n /\ 1 <= n /\
    broadcast_row 6 (r ++ v) = inr row /\ true_anomaly_r (r ++ v) = inr nu.
Proof.
  unfold init_plan.
  destruct (dict_get cb "mu") as [|mu] eqn:Hmu; [discriminate|].
  destruct (coes2rv state0 deg mu) as [|[r' v']] eqn:Hrv; [discriminate|].
  destruct (true_div tspan dt) as [|q] eqn:Hq; [discriminate|].
  destruct (ceil_int q) as [|n'] eqn:Hn; [discriminate|].
  destruct (Z.ltb_spec n' 0); [discriminate|].
  destruct (Z.eqb_spec n' 0); [discriminate|].
  destruct (broadcast_row 6 (r' ++ v')) as [|row'] eqn:Hbr; [discriminate|].
  destruct (true_anomaly_r (r' ++ v')) as [|nu'] eqn:Hnu; [discriminate|].
  intros [= -> -> -> -> ->]. exists mu, q. repeat split; auto. lia.
Qed.

Lemma init_plan_ok state0 tspan dt deg cb mu r v q n nu :
  dict_get cb "mu" = inr mu ->
  coes2rv state0 deg mu = inr (r, v) ->
  length (r ++ v) = 6%nat ->
  true_div tspan dt = inr q ->
  ceil_int q = inr n ->
  1 <= n ->
  true_anomaly_r (r ++ v) = inr nu ->
  init_plan state0 tspan dt deg cb = inr (r, v, r ++ v, n, nu).
Proof.
  intros Hmu Hrv Hlen Hq Hn H1 Hnu. unfold init_plan.
  rewrite Hmu, Hrv, Hq, Hn, Hnu.
  destruct (Z.ltb_spec n 0); [lia|]. destruct (Z.eqb_spec n 0); [lia|].
  rewrite <- Hlen, broadcast_row_same. reflexivity.
Qed.
(** On the orbital-elements path, with every call succeeding and at least
    one sample, the constructor returns the configured instance. *)
Lemma new_coes_ok state0 tspan dt deg cb mu r v q n nu :
  dict_get cb "mu" = inr mu ->
  coes2rv state0 deg mu = inr (r, v) ->
  length (r ++ v) = 6%nat ->
  true_div tspan dt = inr q ->
  ceil_int q = inr n ->
  1 <= n ->
  true_anomaly_r (r ++ v) = inr nu ->
  new coes2rv true_anomaly_r state0 tspan dt true deg false cb
  = Return (configured r v (r ++ v) tspan dt cb n nu).
Proof.
  intros Hmu Hrv Hlen Hq Hn H1 Hnu.
  pose proof (configure_coes_eq state0 tspan dt deg cb) as Hc.
  rewrite (init_plan_ok _ _ _ _ _ _ _ _ _ _ _ Hmu Hrv Hlen Hq Hn H1 Hnu) in Hc.
  rewrite new_unfold, Hc. reflexivity.
Qed.

(** Reading the successful result of a call. *)
Lemma inr_get {A : Type} (x : exn + A) (d : A) :
  match x with inl _ => false | inr _ => true end = true ->
  x = inr (match x with inr a => a | inl _ => d end).
Proof. destruct x; [discriminate|reflexivity]. Qed.
End InitFacts.

(** * The claims *)

Section Claims.
Context {F S : Type} `{!Scalar F} `{!OdeSolver F S}.
Variable coes2rv : list F -> bool -> F -> exn + (list F * list F).
Variable true_anomaly_r : list F -> exn + F.

Local Abbreviation Obj := (@OrbitPropagator F S).

(** Sample 0 of the three arrays: time zero, the state [y0], the true
    anomaly [nu]. *)
Definition sample0 (self : Obj) (y0 : list F) (nu : F) : Prop :=
  (exists ts, self_ts self = Some ts /\ ts !! O = Some (of_int 0)) /\
  (exists ys, self_ys self = Some ys /\ ys !! O = Some y0) /\
  (exists ta, self_ta self = Some ta /\ ta !! O = Some nu).

Lemma sample0_frame k (a b : Obj) y0 nu :
  frame k a b -> 1 <= k -> sample0 a y0 nu -> sample0 b y0 nu.
Proof.
  unfold sample0.
  intros [_ _ _ _ _ _ _ Hts Hys Hta] Hk
    [(ts & Ets & Hts0) [(ys & Eys & Hys0) (ta & Eta & Hta0)]].
  rewrite Ets in Hts. rewrite Eys in Hys. rewrite Eta in Hta.
  destruct (self_ts b) as [ts'|]; [|contradiction].
  destruct (self_ys b) as [ys'|]; [|contradiction].
  destruct (self_ta b) as [ta'|]; [|contradiction].
  destruct Hts as [_ Hts], Hys as [_ Hys], Hta as [_ Hta].
  split; [|split]; eexists; (split; [reflexivity|]).
  - rewrite Hts by lia. assumption.
  - rewrite Hys by lia. assumption.
  - rewrite Hta by lia. assumption.
Qed.

Lemma sample0_configured r v row tspan dt cb n nu :
  1 <= n -> sample0 (configured r v row tspan dt cb n nu) row nu.
Proof.
  intros Hn. unfold sample0. simpl.
  split; [|split]; eexists; (split; [reflexivity|]);
    apply list_lookup_insert_eq; rewrite length_replicate; lia.
Qed.

(** C1 (as the code has it).  Given a raw state vector, the constructor
    assigns the last three components to [r0], never assigns [v0], and
    raises [AttributeError] when it reads [v0] to build [y0]: no instance is
    built, whatever the other arguments. *)
Theorem raw_state_constructor_raises state0 tspan dt deg auto cb :
  new coes2rv true_anomaly_r state0 tspan dt false deg auto cb
  = Raised (AttributeError "v0") /\
  self_r0 (fst (configure coes2rv true_anomaly_r state0 tspan dt false deg cb blank))
  = Some (drop 3 state0) /\
  self_v0 (fst (configure coes2rv true_anomaly_r state0 tspan dt false deg cb blank))
  = None /\
  self_y0 (fst (configure coes2rv true_anomaly_r state0 tspan dt false deg cb blank))
  = None.
Proof.
  rewrite new_unfold, configure_raw. simpl. auto.
Qed.

(** C4.  Whenever the constructor returns an instance whose initial state
    [y0] has six components, sample 0 is the initial condition: time 0, the
    state [y0 = r0 + v0], and the true anomaly of [y0]; and it still is
    after any run of [propagate_orbit], complete or cut short. *)
Theorem sample0_is_initial_condition
    state0 tspan dt coes deg auto cb (self : Obj) y0 :
  new coes2rv true_anomaly_r state0 tspan dt coes deg auto cb = Return self ->
  self_y0 self = Some y0 ->
  length y0 = 6%nat ->
  exists r v nu,
    self_r0 self = Some r /\ self_v0 self = Some v /\ y0 = r ++ v /\
    true_anomaly_r y0 = inr nu /\
    sample0 self y0 nu /\
    forall self' o,
      propagate_orbit true_anomaly_r self = (self', o) -> sample0 self' y0 nu.
Proof.
  intros Hnew Hy0 Hlen.
  apply new_return in Hnew as [_ (r & v & row & n & nu & Hplan & Hself)].
  apply init_plan_inv in Hplan as (mu & q & _ & _ & _ & _ & Hn & Hrow & Hnu).
  pose proof (sample0_configured r v row tspan dt cb n nu Hn) as H0.
  assert (Hc : frame 1 (configured r v row tspan dt cb n nu) self /\
               exists k, self_step self = Some k /\ 1 <= k).
  { destruct auto.
    - pose proof (propagate_orbit_frame true_anomaly_r
                    (configured r v row tspan dt cb n nu) 1 eq_refl ltac:(lia)) as Hf.
      rewrite Hself in Hf. exact Hf.
    - subst self. split; [apply frame_refl|]. exists 1. split; [reflexivity|lia]. }
  destruct Hc as [Hfr (k & Hk & Hk1)].
  assert (y0 = r ++ v) as ->.
  { destruct Hfr as [_ _ E _ _ _ _ _ _ _]. simpl in E. congruence. }
  assert (row = r ++ v) as ->.
  { rewrite <- Hlen, broadcast_row_same in Hrow. congruence. }
  assert (Hs0 : sample0 self (r ++ v) nu)
    by (eapply sample0_frame; [exact Hfr|lia|exact H0]).
  exists r, v, nu.
  destruct Hfr as [Er Ev _ _ _ _ _ _ _ _]. simpl in Er, Ev.
  repeat (split; [solve [auto]|]).
  intros self' o Hp.
  pose proof (propagate_orbit_frame true_anomaly_r self k Hk ltac:(lia)) as [Hf2 _].
  rewrite Hp in Hf2. simpl in Hf2.
  eapply sample0_frame; [exact Hf2|lia|exact Hs0].
Qed.
(** The acceleration as the specification writes it, [-mu * r / |r|^3],
    component by component. *)
Definition two_body_accel (mu : F) (r : list F) : list F :=
  map (fun ri => np_div (mul (neg mu) ri) (pow (linalg_norm r) 3)) r.


(** C9.  The constructor creates one solver, selects its integrator and
    initialises it once, with the initial state at time 0.  Any run of
    [propagate_orbit] then leaves the solver [j] calls of [integrate]
    further, each call starting from the solver the previous call left and
    asking for that solver's own time plus [dt]; a run that returns has made
    [n_steps - 1] calls.  No other solver operation takes place. *)
Theorem solver_initialised_once_then_advanced
    state0 tspan dt coes deg cb (self : Obj) :
  new coes2rv true_anomaly_r state0 tspan dt coes deg false cb = Return self ->
  exists y0 n s0,
    self_y0 self = Some y0 /\ self_dt self = Some dt /\
    self_n_steps self = Some n /\
    s0 = set_initial_value (set_integrator (ode (diffy_q self)) "lsoda")
           y0 (of_int 0) /\
    self_solver self = Some s0 /\
    forall self' o,
      propagate_orbit true_anomaly_r self = (self', o) ->
      exists j s',
        advance_n dt j s0 = inr s' /\ self_solver self' = Some s' /\
        (o = Return tt -> Z.of_nat j = n - 1).
Proof.
  intros Hnew.
  apply new_return in Hnew as [_ (r & v & row & n & nu & Hplan & ->)].
  apply init_plan_inv in Hplan as (mu & q & _ & _ & _ & _ & Hn & _ & _).
  eexists (r ++ v), n, _. repeat (split; [reflexivity|]).
  intros self' o Hp.
  pose proof (propagate_orbit_trace true_anomaly_r _ _ _ _ dt 1 Hp
                eq_refl eq_refl eq_refl ltac:(lia))
    as (k' & j & s' & Hk' & Hle & Hs' & Hadv & _ & Hret & _).
  exists j, s'. repeat split; auto.
  intros ->. specialize (Hret eq_refl).
  apply propagate_orbit_return in Hp
    as (s1 & s & k & n1 & ys & Hw & -> & _ & Hk & Hn1 & Hnk & _).
  simpl in Hk'. rewrite Hk in Hk'. injection Hk' as ->.
  set (c := configured r v row tspan dt cb n nu) in *.
  pose proof (while_loop_frame true_anomaly_r (steps_left c) c 1
                eq_refl ltac:(lia)) as [Hfr _].
  pose proof (while_loop_step_bound true_anomaly_r (steps_left c) c 1 n
                eq_refl eq_refl ltac:(lia)) as (k2 & Hk2 & Hb).
  rewrite Hw in Hfr, Hk2. simpl in Hfr, Hk2.
  destruct Hfr as [_ _ _ _ _ _ En _ _ _]. simpl in En.
  rewrite Hk in Hk2. injection Hk2 as <-.
  rewrite Hn1 in En. injection En as ->. lia.
Qed.

(** The two views [propagate_orbit] sets: the first three columns of the
    states, and the columns from the fourth on. *)
Definition views_set (self : Obj) : Prop :=
  exists ys,
    self_ys self = Some ys /\
    self_rs self = Some (ColSlice None (Some 3%nat)) /\
    self_vs self = Some (ColSlice (Some 3%nat) None) /\
    read_view ys (ColSlice None (Some 3%nat)) = map (take 3) ys /\
    read_view ys (ColSlice (Some 3%nat) None) = map (drop 3) ys.

(** C10.  Once [propagate_orbit] has returned, the step counter has reached
    [n_steps] and the views on positions and velocities are set; calling it
    again runs the loop body not once and leaves the whole instance as it
    is: the three arrays, and the two views, set again to what they
    were. *)
Theorem propagate_orbit_idempotent (self self1 : Obj) :
  propagate_orbit true_anomaly_r self = (self1, Return tt) ->
  (exists k n, self_step self1 = Some k /\ self_n_steps self1 = Some n /\ n <= k) /\
  views_set self1 /\
  (forall fuel, while_loop true_anomaly_r fuel self1 = (self1, Return tt)) /\
  propagate_orbit true_anomaly_r self1 = (self1, Return tt).
Proof.
  intros Hp.
  apply propagate_orbit_return in Hp
    as (s1 & s & k & n & ys & _ & -> & Hs & Hk & Hn & Hle & Hys).
  assert (Hloop : forall fuel (o : Obj),
            self_solver o = Some s -> self_step o = Some k ->
            self_n_steps o = Some n ->
            while_loop true_anomaly_r fuel o = (o, Return tt)).
  { intros fuel o Hs' Hk' Hn'. rewrite while_loop_unfold.
    rewrite (loop_condition_eq o s k n Hs' Hk' Hn').
    destruct (Z.ltb_spec k n); [lia|reflexivity]. }
  split; [exists k, n; auto|].
  split; [exists ys; repeat split; assumption|]. split.
  - intros fuel. apply Hloop; assumption.
  - rewrite propagate_orbit_unfold, Hloop by assumption.
    simpl. rewrite Hys. destruct s1; reflexivity.
Qed.
End Claims.

(** ** Claims about the numbers *)

(** The statements of this section are proved for every arithmetic,
    binary64 included: they speak of the quotient, the ceiling and the sums
    as the code computes them, with whatever rounding, overflow and
    underflow its numbers have. *)

Section NumberClaims.
Context {F S : Type} `{!Scalar F} `{!OdeSolver F S}.
Variable coes2rv : list F -> bool -> F -> exn + (list F * list F).
Variable true_anomaly_r : list F -> exn + F.

Local Abbreviation Obj := (@OrbitPropagator F S).

(** An attribute holds an array of [n] entries. *)
Definition allocated {A : Type} (n : Z) (attr : option (list A)) : Prop :=
  exists a, attr = Some a /\ Z.of_nat (length a) = n.

Lemma allocated_frame {A : Type} k n (a b : option (list A)) :
  agree_below k a b -> allocated n a -> allocated n b.
Proof.
  intros H (l & -> & Hl). destruct b as [l'|]; simpl in H; [|contradiction].
  exists l'. split; [reflexivity|]. destruct H as [-> _]. assumption.
Qed.

Lemma allocated_configured r v row tspan dt cb n nu :
  1 <= n ->
  allocated n (self_ts (configured r v row tspan dt cb n nu : Obj)) /\
  allocated n (self_ys (configured r v row tspan dt cb n nu : Obj)) /\
  allocated n (self_ta (configured r v row tspan dt cb n nu : Obj)).
Proof.
  intros Hn. unfold allocated. simpl.
  repeat split; eexists; (split; [reflexivity|]);
    rewrite length_insert, length_replicate; lia.
Qed.


(** What the loop relies on from [scipy]'s solver: [set_initial_value]
    sets the solver's time, and a call of [integrate] that reports success
    has reached the time it was asked for. *)
Definition solver_contract : Prop :=
  (forall (s : S) y t, sol_t (set_initial_value s y t) = t) /\
  (forall (s s' : S) t,
     integrate s t = inr s' -> successful s' = true -> sol_t s' = t).

(** The time the loop asks for at step [k]: [dt] added [k] times to zero,
    [((0 + dt) + dt) + ..], each sum as the arithmetic computes it. *)
Definition accumulated (dt : F) (k : nat) : F :=
  Nat.iter k (fun t => add t dt) (of_int 0).

(** After [j] successful calls from time zero the solver's time is the
    [j]-fold accumulated sum. *)
Lemma successful_times (dt : F) (s0 : S) :
  solver_contract -> sol_t s0 = of_int 0 ->
  forall (j : nat) (s_j : S),
    (forall i : nat, (1 <= i <= j)%nat ->
       exists s_i, advance_n dt i s0 = inr s_i /\ successful s_i = true) ->
    advance_n dt j s0 = inr s_j ->
    sol_t s_j = accumulated dt j.
Proof.
  intros [_ Hreach] H0. induction j as [|j IH]; intros s_j Hok Hadv.
  - simpl in Hadv. injection Hadv as <-. exact H0.
  - destruct (advance_n_last _ _ _ _ Hadv) as (s' & Hj & Hlast).
    assert (sol_t s' = accumulated dt j) as Ht.
    { apply IH; [|assumption]. intros i Hi. apply Hok. lia. }
    destruct (Hok (Datatypes.S j) ltac:(lia)) as (s_i & Hadv' & Hsucc).
    rewrite Hadv in Hadv'. injection Hadv' as <-.
    unfold advance in Hlast. rewrite (Hreach _ _ _ Hlast Hsucc), Ht.
    reflexivity.
Qed.

(** Where no sum is rounded, the accumulated sum is the product. *)
Lemma accumulated_exact (dt : F) (k : nat) :
  mul (of_int 0) dt = of_int 0 ->
  (forall j : nat, (j < k)%nat ->
     add (mul (of_int (Z.of_nat j)) dt) dt = mul (of_int (Z.of_nat j + 1)) dt) ->
  accumulated dt k = mul (of_int (Z.of_nat k)) dt.
Proof.
  intros H0. induction k as [|k IH]; intros Hstep.
  - symmetry. exact H0.
  - change (accumulated dt (Datatypes.S k)) with (add (accumulated dt k) dt).
    rewrite IH by (intros j Hj; apply Hstep; lia).
    rewrite Hstep by lia. do 2 f_equal. lia.
Qed.


(** What [int(np.ceil(tspan / dt))] and the allocation that follows make
    of a time span and an interval: the exception of the division or of
    the conversion to an integer, [ValueError] for a negative count (the
    arrays cannot be allocated), [IndexError] for a count of zero (sample 0
    cannot be written), and otherwise the count. *)
Definition span_outcome (tspan dt : F) : exn + Z :=
  match true_div tspan dt with
  | inl e => inl e
  | inr q =>
      match ceil_int q with
      | inl e => inl e
      | inr n =>
          if n <? 0 then inl ValueError
          else if n =? 0 then inl IndexError
          else inr n
      end
  end.

Lemma init_plan_bad_span state0 (tspan dt : F) deg cb mu r v e :
  span_outcome tspan dt = inl e ->
  dict_get cb "mu" = inr mu ->
  coes2rv state0 deg mu = inr (r, v) ->
  init_plan coes2rv true_anomaly_r state0 tspan dt deg cb = inl e.
Proof.
  intros Hspan Hmu Hrv. unfold init_plan, span_outcome in *. rewrite Hmu, Hrv.
  destruct (true_div tspan dt) as [e1|q]; [congruence|].
  destruct (ceil_int q) as [e2|n]; [congruence|].
  destruct (n <? 0); [congruence|].
  destruct (n =? 0); [congruence|discriminate].
Qed.

Lemma span_outcome_count (tspan dt : F) n :
  span_outcome tspan dt = inr n ->
  exists q, true_div tspan dt = inr q /\ ceil_int q = inr n /\ 1 <= n.
Proof.
  unfold span_outcome.
  destruct (true_div tspan dt) as [e1|q]; [discriminate|].
  destruct (ceil_int q) as [e2|n'] eqn:Hn; [discriminate|].
  destruct (Z.ltb_spec n' 0); [discriminate|].
  destruct (Z.eqb_spec n' 0); [discriminate|].
  intros [= <-]. exists q. repeat split; [exact Hn|lia].
Qed.

End NumberClaims.

(** ** Claims about the numbers, in binary64 *)

Import Binary64.

(** A value that is not a finite number: an infinity or not-a-number. *)
Definition non_finite (x : float) : bool :=
  match Prim2SF x with
  | S754_nan | S754_infinity _ => true
  | _ => false
  end.

Section Binary64Claims.
Context {S : Type} `{!OdeSolver float S}.

Local Abbreviation Obj := (@OrbitPropagator float S).

(** Whatever is divided by zero, the quotient is not finite. *)
Lemma div_by_zero_non_finite (x : float) :
  non_finite (PrimFloat.div x 0%float) = true.
Proof.
  unfold non_finite. rewrite div_spec.
  change (Prim2SF 0%float) with (S754_zero false).
  destruct (Prim2SF x); reflexivity.
Qed.

(** C7 (as the code has it).  Applied to a state whose [|r|] is zero,
    [diffy_q] raises nothing: it has no guard, divides by [|r|^3 = 0] and
    returns the velocity followed by three components that are not finite
    numbers. *)
Theorem diffy_q_at_zero_radius (self : Obj) cb mu t rx ry rz vx vy vz :
  self_cb self = Some cb ->
  cb !! "mu" = Some mu ->
  linalg_norm [rx; ry; rz] = of_int 0 ->
  exists ax ay az,
    diffy_q self t [rx; ry; rz; vx; vy; vz] = inr [vx; vy; vz; ax; ay; az] /\
    non_finite ax = true /\ non_finite ay = true /\ non_finite az = true.
Proof.
  intros Hcb Hmu Hnorm. unfold diffy_q, dict_get. rewrite Hcb, Hmu, Hnorm.
  change (pow (of_int 0) 3) with 0%float.
  do 3 eexists. split; [reflexivity|].
  cbn [np_div binary64].
  repeat split; apply div_by_zero_non_finite.
Qed.
End Binary64Claims.

(** * Concrete runs *)

(** The instance a constructor call returned ([blank] when it raised). *)
Definition instance_of {F S : Type} (o : outcome (@OrbitPropagator F S))
  : @OrbitPropagator F S :=
  match o with
  | Return self => self
  | _ => blank
  end.

Module Run64.
(** A central body in canonical units, and a circular orbit around it. *)
Definition unit_body : gmap string float := {["mu" := 1%float]}.
Definition circular : list float := [1; 0; 0; 0; 1; 0]%float.

(** [OrbitPropagator(state0, tspan, dt, coes=.., auto_orbit_prop=..,
    cb=unit_body)] with the Euler integrator of the given budget and the
    stand-ins for [tools]. *)
Definition construct (budget : nat) (state0 : list float) (tspan dt : float)
    (coes auto : bool) : outcome (@OrbitPropagator float Euler.state) :=
  @new float Euler.state binary64 (Euler.solver budget)
    Standin.coes2rv Standin.true_anomaly_r state0 tspan dt coes true auto unit_body.

(** The Euler integrator with steps to spare. *)
#[local] Instance euler : OdeSolver float Euler.state := Euler.solver 10.

(** A configured instance of four samples, not yet run, and the same
    instance after [propagate_orbit]. *)
Definition fresh : @OrbitPropagator float Euler.state :=
  instance_of (construct 10 circular 4 1 true false).
Definition ran : @OrbitPropagator float Euler.state :=
  fst (propagate_orbit Standin.true_anomaly_r fresh).

Lemma fresh_constructed : construct 10 circular 4 1 true false = Return fresh.
Proof. vm_compute. reflexivity. Qed.

Lemma ran_returned :
  propagate_orbit Standin.true_anomaly_r fresh = (ran, Return tt).
Proof. vm_compute. reflexivity. Qed.

(** C2 (as the code has it).  The loop condition reads the attribute
    [successful] without calling it, so a failure of the integrator stops
    nothing.  Here the integrator succeeds at step 1 and fails from step 2
    on, of four; the loop still runs to the end and writes samples 2 and 3,
    with the time and state the failed solver is stuck at, where zeros
    would have remained had the loop halted. *)
Theorem loop_ignores_integrator_failure :
  let self := instance_of (construct 1 circular 4 1 true true) in
  construct 1 circular 4 1 true true = Return self /\
  option_map Euler.ok (self_solver self) = Some false /\
  self_step self = Some 4 /\
  self_ts self = Some [0; 1; 1; 1]%float /\
  self_ys self = Some [[1; 0; 0; 0; 1; 0]; [1; 1; 0; -1; 1; 0];
                       [1; 1; 0; -1; 1; 0]; [1; 1; 0; -1; 1; 0]]%float /\
  self_ta self = Some [1; 1; 1; 1]%float.
Proof. vm_compute. repeat split; reflexivity. Qed.

(** C7, refuted as stated: at zero radius [diffy_q] returns, with
    not-a-number for the acceleration. *)
Lemma diffy_q_zero_radius_returns_nan :
  diffy_q fresh 0%float [0; 0; 0; 1; 2; 3]%float
  = inr [1; 2; 3; nan; nan; nan]%float.
Proof. vm_compute. reflexivity. Qed.

Lemma diffy_q_at_zero_radius_witness :
  exists ax ay az,
    diffy_q fresh 0%float [0; 0; 0; 1; 2; 3]%float
    = inr [1; 2; 3; ax; ay; az]%float /\
    non_finite ax = true /\ non_finite ay = true /\ non_finite az = true.
Proof.
  apply (diffy_q_at_zero_radius (S := Euler.state) fresh unit_body 1%float);
    vm_compute; reflexivity.
Defined.

Lemma sample0_is_initial_condition_witness :
  exists r v nu,
    self_r0 ran = Some r /\ self_v0 ran = Some v /\ circular = r ++ v /\
    Standin.true_anomaly_r circular = inr nu /\
    sample0 ran circular nu /\
    forall self' o,
      propagate_orbit Standin.true_anomaly_r ran = (self', o) ->
      sample0 self' circular nu.
Proof.
  apply (sample0_is_initial_condition (S := Euler.state)
           Standin.coes2rv Standin.true_anomaly_r
           circular 4%float 1%float true true true unit_body ran circular);
    vm_compute; reflexivity.
Defined.

Lemma solver_initialised_once_then_advanced_witness :
  exists y0 n s0,
    self_y0 fresh = Some y0 /\ self_dt fresh = Some 1%float /\
    self_n_steps fresh = Some n /\
    s0 = set_initial_value (set_integrator (ode (diffy_q fresh)) "lsoda")
           y0 (of_int 0) /\
    self_solver fresh = Some s0 /\
    forall self' o,
      propagate_orbit Standin.true_anomaly_r fresh = (self', o) ->
      exists j s',
        advance_n 1%float j s0 = inr s' /\
        self_solver self' = Some s' /\
        (o = Return tt -> Z.of_nat j = n - 1).
Proof.
  apply (solver_initialised_once_then_advanced (S := Euler.state)
           Standin.coes2rv Standin.true_anomaly_r
           circular 4%float 1%float true true unit_body fresh).
  exact fresh_constructed.
Defined.

Lemma propagate_orbit_idempotent_witness :
  (exists k n, self_step ran = Some k /\ self_n_steps ran = Some n /\ n <= k) /\
  views_set ran /\
  (forall fuel,
     while_loop Standin.true_anomaly_r fuel ran = (ran, Return tt)) /\
  propagate_orbit Standin.true_anomaly_r ran = (ran, Return tt).
Proof.
  apply (propagate_orbit_idempotent (S := Euler.state)
           Standin.true_anomaly_r fresh ran).
  exact ran_returned.
Defined.
End Run64.

(** The numbers of the claims, in binary64. *)
Module Numbers64.
#[local] Instance euler : OdeSolver float Euler.state := Euler.solver 10.

(** Two positive numbers whose quotient underflows one way and overflows
    the other; the binary64 numbers next to 1/3 and to 1/10. *)
Definition tiny : float := 0x1p-1000%float.
Definition huge : float := 0x1p1000%float.
Definition third : float := PrimFloat.div 1 3.
Definition tenth : float := 0x1.999999999999ap-4%float.

(** The rational number a finite binary64 number stands for. *)
Definition exact_value (x : float) : Q :=
  match Prim2SF x with
  | S754_finite s m e =>
      (inject_Z (if s then Z.neg m else Z.pos m) * Qpower 2 e)%Q
  | _ => 0%Q
  end.

(** The Euler integrator honours the contract of the solver. *)
Lemma euler_contract (budget : nat) :
  @solver_contract float Euler.state (Euler.solver budget).
Proof.
  split; [reflexivity|].
  intros s s' t. cbn [integrate successful sol_t Euler.solver]. unfold Euler.step.
  destruct (Euler.budget s); [intros [= <-]; discriminate|].
  destruct (Euler.f s (Euler.t s) (Euler.y s)); [discriminate|].
  intros [= <-] _. reflexivity.
Qed.

(** The solver of [fresh], and the solver [j] calls later. *)
Definition solver0 : Euler.state (F := float) :=
  default (ode (fun _ _ => inl ValueError)) (self_solver Run64.fresh).
Definition solver_after (j : nat) : Euler.state (F := float) :=
  match advance_n 1%float j solver0 with
  | inr s => s
  | inl _ => solver0
  end.






End Numbers64.

Import Exact.

Module RunQ.
(** The same orbit in exact rationals, sampled every half unit of time. *)
Definition unit_body : gmap string Qc := {["mu" := 1%Qc]}.
Definition circular : list Qc := [1; 0; 0; 0; 1; 0]%Qc.
Definition half : Qc := Q2Qc (1 # 2).

#[local] Instance euler : OdeSolver Qc Euler.state := Euler.solver 10.

(** The instance of four samples the constructor returns for a span of 2,
    not yet run. *)
Definition fresh : @OrbitPropagator Qc Euler.state :=
  configured [1; 0; 0]%Qc [0; 1; 0]%Qc circular (of_int 2) half unit_body 4 1%Qc.

End RunQ.

(** * Further properties of the class *)

Section Further.
Context {F S : Type} `{!Scalar F} `{!OdeSolver F S}.
Variable coes2rv : list F -> bool -> F -> exn + (list F * list F).
Variable true_anomaly_r : list F -> exn + F.

Local Abbreviation Obj := (@OrbitPropagator F S).

(** What the stepping loop leaves alone in every case, whatever the state
    it starts from: the configuration, the two views, and the size of the
    three arrays. *)
Record kept (self self' : Obj) : Prop := {
  kept_r0 : self_r0 self' = self_r0 self;
  kept_v0 : self_v0 self' = self_v0 self;
  kept_y0 : self_y0 self' = self_y0 self;
  kept_tspan : self_tspan self' = self_tspan self;
  kept_dt : self_dt self' = self_dt self;
  kept_cb : self_cb self' = self_cb self;
  kept_n_steps : self_n_steps self' = self_n_steps self;
  kept_rs : self_rs self' = self_rs self;
  kept_vs : self_vs self' = self_vs self;
  kept_ts : length <$> self_ts self' = length <$> self_ts self;
  kept_ys : length <$> self_ys self' = length <$> self_ys self;
  kept_ta : length <$> self_ta self' = length <$> self_ta self
}.

Lemma kept_refl (self : Obj) : kept self self.
Proof. split; reflexivity. Qed.

Lemma kept_trans (a b c : Obj) : kept a b -> kept b c -> kept a c.
Proof. intros [] []. split; congruence. Qed.

Ltac kept_size :=
  repeat match goal with
         | H : _ = Some _ |- _ => rewrite H
         end;
  simpl; try reflexivity; f_equal;
  eauto using setitem_length, setrow_length.

Lemma loop_body_kept (self : Obj) :
  kept self (fst (loop_body true_anomaly_r self)).
Proof.
  unfold loop_body. munfold.
  repeat mstep; simplify_eq; (split; simpl; try reflexivity; kept_size).
Qed.

Lemma while_loop_kept fuel : forall self : Obj,
  kept self (fst (while_loop true_anomaly_r fuel self)).
Proof.
  induction fuel as [|fuel IH]; intros self; rewrite while_loop_unfold;
    pose proof (loop_condition_state self) as Hc;
    destruct (loop_condition self) as [s0 oc]; simpl in Hc; subst s0.
  - destruct oc as [[]| |]; apply kept_refl.
  - destruct oc as [[]| |]; try apply kept_refl.
    pose proof (loop_body_kept self) as Hb.
    destruct (loop_body true_anomaly_r self) as [s1 [[]| |]]; simpl in *;
      try exact Hb.
    eapply kept_trans; [exact Hb|apply IH].
Qed.
Lemma configure_not_out_of_fuel state0 tspan dt coes deg cb :
  snd (configure (S := S) coes2rv true_anomaly_r state0 tspan dt coes deg cb blank)
  <> OutOfFuel.
Proof.
  destruct coes; [|rewrite configure_raw; discriminate].
  pose proof (configure_coes_eq (S := S) coes2rv true_anomaly_r
                state0 tspan dt deg cb) as Hc.
  destruct (init_plan coes2rv true_anomaly_r state0 tspan dt deg cb)
    as [e|[[[[r v] row] n] nu]]; rewrite Hc; discriminate.
Qed.

(** X1.  The constructor and [propagate_orbit] always come to an end, with
    a result or an exception, whatever the arguments, the state of the
    instance and the behaviour of the solver: the [while] loop cannot run
    for ever, because each iteration that does not raise moves [step] one
    closer to [n_steps]. *)
Theorem construction_and_propagation_terminate
    state0 tspan dt coes deg auto cb :
  new (S := S) coes2rv true_anomaly_r state0 tspan dt coes deg auto cb <> OutOfFuel /\
  forall self : Obj, snd (propagate_orbit true_anomaly_r self) <> OutOfFuel.
Proof.
  split; [|apply propagate_orbit_terminates].
  rewrite new_unfold.
  pose proof (configure_not_out_of_fuel state0 tspan dt coes deg cb) as Hc.
  destruct (configure coes2rv true_anomaly_r state0 tspan dt coes deg cb blank)
    as [self [[]| |]]; simpl in Hc; try discriminate; try contradiction.
  destruct auto; [|discriminate].
  pose proof (propagate_orbit_terminates true_anomaly_r self) as Hp.
  destruct (propagate_orbit true_anomaly_r self) as [self' [[]| |]];
    simpl in Hp; try discriminate; contradiction.
Qed.

(** X2.  [diffy_q] accepts states of exactly six components: given any
    other number of them the unpacking on its first line fails with
    [ValueError], before the central body is looked at. *)
Theorem diffy_q_rejects_other_lengths (self : Obj) t y :
  length y <> 6%nat -> diffy_q self t y = inl ValueError.
Proof.
  intros Hlen.
  destruct y as [|a [|b [|c [|d [|e [|f [|g l]]]]]]]; try reflexivity.
  contradiction Hlen. reflexivity.
Qed.

(** X3.  On a six-component state, [diffy_q] needs the key ['mu'] of the
    central body: when the dict does not have it, the call raises
    [KeyError] for ['mu']. *)
Theorem diffy_q_needs_mu (self : Obj) cb t y :
  self_cb self = Some cb -> cb !! "mu" = None -> length y = 6%nat ->
  diffy_q self t y = inl (KeyError "mu").
Proof.
  intros Hcb Hmu Hlen.
  destruct y as [|a [|b [|c [|d [|e [|f [|g l]]]]]]]; try discriminate.
  unfold diffy_q, dict_get. rewrite Hcb, Hmu. reflexivity.
Qed.

(** X4.  Built from orbital elements with a central body that has no key
    ['mu'], the constructor raises [KeyError] for ['mu'], whatever the
    elements, the time span and the interval are. *)
Theorem constructor_needs_mu state0 tspan dt deg auto cb :
  cb !! "mu" = None ->
  new (S := S) coes2rv true_anomaly_r state0 tspan dt true deg auto cb
  = Raised (KeyError "mu").
Proof.
  intros Hmu. rewrite new_unfold.
  pose proof (configure_coes_eq (S := S) coes2rv true_anomaly_r
                state0 tspan dt deg cb) as Hc.
  unfold init_plan, dict_get in Hc. rewrite Hmu in Hc.
  destruct (configure coes2rv true_anomaly_r state0 tspan dt true deg cb blank)
    as [s1 o1]. simpl in Hc. subst o1. reflexivity.
Qed.

(** X5.  An exception raised by a collaborator aborts the construction
    with that exception: one raised by [coes2rv], and, once the arrays are
    allocated, one raised by [true_anomaly_r] on the initial state. *)
Theorem collaborator_exceptions_abort_construction
    state0 tspan dt deg auto cb mu :
  dict_get cb "mu" = inr mu ->
  (forall e, coes2rv state0 deg mu = inl e ->
     new (S := S) coes2rv true_anomaly_r state0 tspan dt true deg auto cb
     = Raised e) /\
  (forall r v q n e,
     coes2rv state0 deg mu = inr (r, v) -> length (r ++ v) = 6%nat ->
     true_div tspan dt = inr q -> ceil_int q = inr n -> 1 <= n ->
     true_anomaly_r (r ++ v) = inl e ->
     new (S := S) coes2rv true_anomaly_r state0 tspan dt true deg auto cb
     = Raised e).
Proof.
  intros Hmu.
  pose proof (configure_coes_eq (S := S) coes2rv true_anomaly_r
                state0 tspan dt deg cb) as Hc.
  unfold init_plan in Hc. rewrite Hmu in Hc. split.
  - intros e He. rewrite He in Hc. rewrite new_unfold.
    destruct (configure coes2rv true_anomaly_r state0 tspan dt true deg cb blank)
      as [s1 o1]. simpl in Hc. subst o1. reflexivity.
  - intros r v q n e Hrv Hlen Hq Hn H1 He.
    rewrite Hrv, Hq, Hn, He in Hc.
    destruct (Z.ltb_spec n 0); [lia|]. destruct (Z.eqb_spec n 0); [lia|].
    rewrite <- Hlen, broadcast_row_same in Hc. rewrite new_unfold.
    destruct (configure coes2rv true_anomaly_r state0 tspan dt true deg cb blank)
      as [s1 o1]. simpl in Hc. subst o1. reflexivity.
Qed.

(** X6.  [propagate_orbit] never changes the configuration of an instance
    ([r0], [v0], [y0], [tspan], [dt], [cb], [n_steps]) and never resizes
    the arrays of times, states and true anomalies, from whatever state it
    starts and whether it returns or raises. *)
Theorem propagate_orbit_keeps_configuration (self : Obj) :
  let self' := fst (propagate_orbit true_anomaly_r self) in
  self_r0 self' = self_r0 self /\ self_v0 self' = self_v0 self /\
  self_y0 self' = self_y0 self /\ self_tspan self' = self_tspan self /\
  self_dt self' = self_dt self /\ self_cb self' = self_cb self /\
  self_n_steps self' = self_n_steps self /\
  length <$> self_ts self' = length <$> self_ts self /\
  length <$> self_ys self' = length <$> self_ys self /\
  length <$> self_ta self' = length <$> self_ta self.
Proof.
  intros self'. subst self'. rewrite propagate_orbit_unfold.
  pose proof (while_loop_kept (steps_left self) self) as Hk.
  destruct (while_loop true_anomaly_r (steps_left self) self) as [s1 [[]| |]];
    simpl in Hk; [destruct (self_ys s1)| |]; destruct Hk; simpl; auto 10.
Qed.

(** X7.  The two views [rs] and [vs] are assigned only at the very end:
    when [propagate_orbit] raises, both are as they were before the call
    (absent, on an instance that has not completed a run). *)
Theorem propagate_orbit_raise_leaves_views (self self' : Obj) e :
  propagate_orbit true_anomaly_r self = (self', Raised e) ->
  self_rs self' = self_rs self /\ self_vs self' = self_vs self.
Proof.
  rewrite propagate_orbit_unfold.
  pose proof (while_loop_kept (steps_left self) self) as Hk.
  destruct (while_loop true_anomaly_r (steps_left self) self) as [s1 [[]| |]];
    simpl in Hk; try discriminate.
  - destruct (self_ys s1); [discriminate|].
    intros [= <- _]. destruct Hk; auto.
  - intros [= <- _]. destruct Hk; auto.
Qed.

(** X8.  When the first call of [integrate] raises, [propagate_orbit]
    raises the same exception and the instance is exactly as it was:
    nothing has been written, the step counter has not moved. *)
Theorem first_integrate_exception_leaves_instance (self : Obj) s d k n e :
  self_solver self = Some s -> self_dt self = Some d ->
  self_step self = Some k -> self_n_steps self = Some n -> k < n ->
  integrate s (add (sol_t s) d) = inl e ->
  propagate_orbit true_anomaly_r self = (self, Raised e).
Proof.
  intros Hs Hd Hk Hn Hlt He. rewrite propagate_orbit_unfold.
  assert (steps_left self = Datatypes.S (Nat.pred (steps_left self))) as ->.
  { unfold steps_left. rewrite Hk, Hn. lia. }
  rewrite while_loop_unfold, (loop_condition_eq self s k n Hs Hk Hn).
  destruct (Z.ltb_spec k n); [|lia].
  assert (loop_body true_anomaly_r self = (self, Raised e)) as ->; [|reflexivity].
  unfold loop_body. munfold. rewrite Hs, Hd. simpl. rewrite He. reflexivity.
Qed.
(** *** The samples a run records *)

Lemma getitem_at {A : Type} (a : list A) i x :
  getitem a i = inr x -> 0 <= i -> a !! Z.to_nat i = Some x.
Proof.
  unfold getitem. destruct (norm_index (length a) i) as [|j] eqn:E; [discriminate|].
  intros Hget Hi. apply norm_index_nonneg in E as [-> _]; [|assumption].
  destruct (a !! Z.to_nat i); [congruence|discriminate].
Qed.

Lemma broadcast_row_length {A : Type} w (v row : list A) :
  broadcast_row w v = inr row -> length row = w.
Proof.
  unfold broadcast_row. destruct (bool_decide (length v = w)) eqn:E.
  - intros [= <-]. apply bool_decide_eq_true_1 in E. exact E.
  - destruct v as [|x [|y l]]; try discriminate.
    intros [= <-]. apply length_replicate.
Qed.

Lemma setrow_at {A : Type} (a a' : list (list A)) i v :
  setrow a i v = inr a' -> 0 <= i ->
  exists old row, a !! Z.to_nat i = Some old /\
    broadcast_row (length old) v = inr row /\ a' !! Z.to_nat i = Some row /\
    a' = <[Z.to_nat i := row]> a.
Proof.
  unfold setrow. destruct (norm_index (length a) i) as [|j] eqn:E; [discriminate|].
  intros Hset Hi. apply norm_index_nonneg in E as [-> Hlt]; [|assumption].
  destruct (a !! Z.to_nat i) as [old|] eqn:Eo; [|discriminate].
  destruct (broadcast_row (length old) v) as [|row] eqn:Eb; [discriminate|].
  injection Hset as <-. exists old, row. repeat split; auto.
  apply list_lookup_insert_eq. assumption.
Qed.

(** Every row of the array of states has [w] entries. *)
Definition has_width (w : nat) (self : Obj) : Prop :=
  exists ys, self_ys self = Some ys /\ Forall (fun row => length row = w) ys.

Lemma while_loop_samples fuel : forall (self self' : Obj) o s d k w k',
  while_loop true_anomaly_r fuel self = (self', o) ->
  self_solver self = Some s -> self_dt self = Some d ->
  self_step self = Some k -> 0 <= k -> has_width w self ->
  self_step self' = Some k' ->
  forall i : nat, k <= Z.of_nat i < k' ->
    exists s_i row nu ys ta,
      advance_n d (Z.to_nat (Z.of_nat i - k + 1)) s = inr s_i /\
      self_ys self' = Some ys /\ ys !! i = Some row /\
      broadcast_row w (sol_y s_i) = inr row /\
      true_anomaly_r row = inr nu /\
      self_ta self' = Some ta /\ ta !! i = Some nu.
Proof.
  induction fuel as [|fuel IH]; intros self self' o s d k w k';
    rewrite while_loop_unfold;
    pose proof (loop_condition_state self) as Hc;
    destruct (loop_condition self) as [s0 oc]; simpl in Hc; subst s0;
    intros Hw Hs Hd Hk H0 Hwidth Hk' i Hi.
  - assert (self' = self) as -> by (destruct oc as [[]| |]; congruence).
    rewrite Hk in Hk'. injection Hk' as <-. lia.
  - destruct oc as [[]| |];
      try (assert (self' = self) as -> by congruence;
           rewrite Hk in Hk'; injection Hk' as <-; lia).
    destruct (loop_body true_anomaly_r self) as [s1 o1] eqn:Hbody.
    pose proof (loop_body_trace _ _ _ _ _ _ _ Hbody Hs Hd Hk) as Ht.
    destruct Ht as [[-> (sv1 & Ha & Hs1)]|[(e & ->) (Hk1 & _)]].
    + pose proof Hbody as Hret.
      apply loop_body_return in Hret
        as (s_ & d_ & s1_ & ts & k_ & ts1 & ys & ys1 & row & nu & ta & ta1 &
            Es & Ed & Ei & Ets & Ek & Eset & Eys & Esetrow & Eget & Enu & Eta &
            Esetta & ->).
      rewrite Hs in Es. rewrite Hd in Ed. rewrite Hk in Ek.
      injection Es as <-. injection Ed as <-. injection Ek as <-.
      destruct Hwidth as (ys_ & Eys_ & Hall). rewrite Eys in Eys_.
      injection Eys_ as <-.
      destruct (setrow_at _ _ _ _ Esetrow H0)
        as (old & row' & Hold & Hbr & Hrow' & ->).
      assert (length old = w) as Hlen_old.
      { eapply (proj1 (Forall_lookup _ _) Hall). exact Hold. }
      rewrite Hlen_old in Hbr.
      pose proof (getitem_at _ _ _ Eget H0) as Hrow. rewrite Hrow' in Hrow.
      injection Hrow as ->.
      set (self1 := set_step (k + 1) _) in *.
      assert (Hwidth1 : has_width w self1).
      { exists (<[Z.to_nat k := row]> ys). split; [reflexivity|].
        apply Forall_insert; [assumption|].
        eapply broadcast_row_length. exact Hbr. }
      pose proof (while_loop_frame true_anomaly_r fuel self1 (k + 1)
                    eq_refl ltac:(lia)) as [Hfr _].
      rewrite Hw in Hfr. simpl in Hfr.
      destruct (decide (Z.of_nat i = k)) as [Heq|Hne].
      * destruct Hfr as [_ _ _ _ _ _ _ _ Hys Hta]. simpl in Hys, Hta.
        destruct (self_ys self') as [ys'|] eqn:Eys'; [|contradiction].
        destruct (self_ta self') as [ta'|] eqn:Eta'; [|contradiction].
        destruct Hys as [_ Hys], Hta as [_ Hta].
        exists s1_, row, nu, ys', ta'.
        replace (Z.to_nat (Z.of_nat i - k + 1)) with 1%nat by lia.
        simpl. unfold advance. rewrite Ei.
        repeat split; auto.
        -- rewrite Hys by lia. replace i with (Z.to_nat k) by lia. exact Hrow'.
        -- rewrite Hta by lia. replace i with (Z.to_nat k) by lia.
           eapply setitem_at; eauto.
      * destruct (IH self1 self' _ s1_ d (k + 1) w k' Hw eq_refl Hd eq_refl
                    ltac:(lia) Hwidth1 Hk' i ltac:(lia))
          as (s_i & row_i & nu_i & ys' & ta' & Hadv & Hys' & Hl & Hb & Hn & Hta' & Hlt).
        exists s_i, row_i, nu_i, ys', ta'. repeat split; auto.
        replace (Z.to_nat (Z.of_nat i - k + 1))
          with (Datatypes.S (Z.to_nat (Z.of_nat i - (k + 1) + 1))) by lia.
        simpl. unfold advance. rewrite Ei. assumption.
    + injection Hw as <- _. rewrite Hk1 in Hk'. injection Hk' as <-. lia.
Qed.

(** X9.  A run of [propagate_orbit] that returns, on a newly built
    instance, leaves the step counter at [n_steps] and has recorded a
    sample at every index from 1 to [n_steps - 1]: the time and the state
    of the solver after that many calls of [integrate] (the state broadcast
    into the row of six entries), and the true anomaly [true_anomaly_r]
    gives for the recorded row. *)
Theorem completed_run_records_every_sample
    state0 tspan dt coes deg cb (self self' : Obj) n s0 :
  new coes2rv true_anomaly_r state0 tspan dt coes deg false cb = Return self ->
  self_n_steps self = Some n ->
  self_solver self = Some s0 ->
  propagate_orbit true_anomaly_r self = (self', Return tt) ->
  self_step self' = Some n /\
  forall i : nat, 1 <= Z.of_nat i < n ->
    exists s_i row nu ts ys ta,
      advance_n dt i s0 = inr s_i /\
      self_ts self' = Some ts /\ ts !! i = Some (sol_t s_i) /\
      self_ys self' = Some ys /\ ys !! i = Some row /\
      broadcast_row 6 (sol_y s_i) = inr row /\
      self_ta self' = Some ta /\ true_anomaly_r row = inr nu /\
      ta !! i = Some nu.
Proof.
  intros Hnew Hn Hs0 Hp.
  apply new_return in Hnew as [_ (r & v & row0 & n_ & nu0 & Hplan & ->)].
  apply init_plan_inv in Hplan as (mu & q & _ & _ & _ & _ & Hn1 & Hrow0 & _).
  simpl in Hn. injection Hn as ->.
  set (c := configured r v row0 tspan dt cb n nu0) in *.
  assert (Hwidth : has_width 6 c).
  { eexists. split; [reflexivity|].
    apply Forall_insert; [apply Forall_replicate; apply length_replicate|].
    eapply broadcast_row_length. exact Hrow0. }
  pose proof Hp as Hret.
  apply propagate_orbit_return in Hret
    as (s1 & s & k & n1 & ys1 & Hw & -> & _ & Hk & Hn1' & Hnk & _).
  pose proof (while_loop_frame true_anomaly_r (steps_left c) c 1
                eq_refl ltac:(lia)) as [Hfr _].
  pose proof (while_loop_step_bound true_anomaly_r (steps_left c) c 1 n
                eq_refl eq_refl ltac:(lia)) as (k2 & Hk2 & Hb).
  rewrite Hw in Hfr, Hk2. simpl in Hfr, Hk2.
  destruct Hfr as [_ _ _ _ _ _ En _ _ _]. simpl in En.
  rewrite Hk in Hk2. injection Hk2 as <-.
  rewrite Hn1' in En. injection En as ->.
  assert (k = n) as -> by lia.
  split; [exact Hk|].
  intros i Hi.
  pose proof (while_loop_trace true_anomaly_r _ _ _ _ s0 dt 1 Hw Hs0
                eq_refl eq_refl ltac:(lia))
    as (k'' & j & s' & Hk'' & _ & _ & _ & _ & _ & Hrec).
  rewrite Hk in Hk''. injection Hk'' as <-.
  destruct (Hrec i ltac:(lia)) as (s_i & ts & Hadv & Hts & Hlt).
  destruct (while_loop_samples _ _ _ _ s0 dt 1 6%nat n Hw Hs0 eq_refl eq_refl
              ltac:(lia) Hwidth Hk i ltac:(lia))
    as (s_i' & row & nu & ys & ta & Hadv' & Hys & Hly & Hbr & Hnu & Hta & Hlta).
  replace (Z.to_nat (Z.of_nat i - 1 + 1)) with i in Hadv, Hadv' by lia.
  rewrite Hadv in Hadv'. injection Hadv' as <-.
  exists s_i, row, nu, ts, ys, ta. simpl. repeat split; assumption.
Qed.
End Further.

(** ** A run of a single sample *)

Section FurtherNumbers.
Context {F S : Type} `{!Scalar F} `{!OdeSolver F S}.
Variable coes2rv : list F -> bool -> F -> exn + (list F * list F).
Variable true_anomaly_r : list F -> exn + F.

Local Abbreviation Obj := (@OrbitPropagator F S).

(** X11.  When the step count the constructor computes,
    [int(np.ceil(tspan / dt))], is 1, the trajectory has one sample, the
    initial condition: the constructor with [auto_orbit_prop] set returns
    the configured instance with only the two views added, and the solver
    is the initialised one, on which [integrate] was never called. *)
Theorem single_sample_when_one_step state0 (tspan dt : F) deg cb mu r v q nu :
  dict_get cb "mu" = inr mu ->
  coes2rv state0 deg mu = inr (r, v) ->
  length (r ++ v) = 6%nat ->
  true_anomaly_r (r ++ v) = inr nu ->
  true_div tspan dt = inr q -> ceil_int q = inr 1 ->
  new (S := S) coes2rv true_anomaly_r state0 tspan dt true deg true cb
  = Return (set_vs (ColSlice (Some 3%nat) None)
              (set_rs (ColSlice None (Some 3%nat))
                 (configured r v (r ++ v) tspan dt cb 1 nu))).
Proof.
  intros Hmu Hrv Hlen Hnu Hq Hn.
  pose proof (init_plan_ok coes2rv true_anomaly_r state0 tspan dt deg cb mu r v
                q 1 nu Hmu Hrv Hlen Hq Hn ltac:(lia) Hnu) as Hplan.
  pose proof (configure_coes_eq (S := S) coes2rv true_anomaly_r
                state0 tspan dt deg cb) as Hc.
  rewrite Hplan in Hc. rewrite new_unfold, Hc.
  rewrite propagate_orbit_unfold.
  change (steps_left (configured r v (r ++ v) tspan dt cb 1 nu)) with O.
  rewrite while_loop_unfold.
  erewrite loop_condition_eq by reflexivity.
  reflexivity.
Qed.
End FurtherNumbers.

(** ** Concrete runs for the further properties *)

Module Check64.
#[local] Instance euler : OdeSolver float Euler.state := Euler.solver 10.

(** A central body without gravitational parameter. *)
Definition no_mu : gmap string float := {["radius" := 1%float]}.

(** A stand-in for [tools.true_anomaly_r] that raises. *)
Definition failing_anomaly (state : list float) : exn + float :=
  inl (Foreign "degenerate orbit").

(** An instance whose initial state has a single component (numpy
    broadcasts it into row 0): the first call of [integrate] makes
    [diffy_q] raise. *)
Definition short : @OrbitPropagator float Euler.state :=
  instance_of (Run64.construct 10 [1%float] 4 1 true false).
Definition short_solver : Euler.state (F := float) :=
  default (ode (fun _ _ => inl ValueError)) (self_solver short).
Definition fresh_solver : Euler.state (F := float) :=
  default (ode (fun _ _ => inl ValueError)) (self_solver Run64.fresh).

Lemma short_raises :
  propagate_orbit Standin.true_anomaly_r short = (short, Raised ValueError).
Proof. vm_compute. reflexivity. Qed.

Lemma diffy_q_rejects_other_lengths_witness :
  diffy_q Run64.fresh 0%float [1; 2; 3]%float = inl ValueError.
Proof.
  apply (diffy_q_rejects_other_lengths (S := Euler.state)). simpl. lia.
Defined.

Lemma diffy_q_needs_mu_witness :
  diffy_q (set_cb no_mu (@blank float (@Euler.state float)))
    0%float Run64.circular
  = inl (KeyError "mu").
Proof.
  apply (diffy_q_needs_mu (S := Euler.state) _ no_mu); reflexivity.
Defined.

Lemma constructor_needs_mu_witness :
  new (S := Euler.state) Standin.coes2rv Standin.true_anomaly_r
    Run64.circular 4%float 1%float true true true no_mu
  = Raised (KeyError "mu").
Proof.
  apply (constructor_needs_mu (S := Euler.state)). reflexivity.
Defined.

Lemma collaborator_exceptions_witness :
  new (S := Euler.state) Standin.coes2rv failing_anomaly
    Run64.circular 4%float 1%float true true true Run64.unit_body
  = Raised (Foreign "degenerate orbit").
Proof.
  apply (proj2 (collaborator_exceptions_abort_construction (S := Euler.state)
                  Standin.coes2rv failing_anomaly
                  Run64.circular 4%float 1%float true true Run64.unit_body
                  1%float eq_refl)
           [1; 0; 0]%float [0; 1; 0]%float 4%float 4);
    first [lia | reflexivity].
Defined.

Lemma propagate_orbit_raise_leaves_views_witness :
  self_rs short = self_rs short /\ self_vs short = self_vs short.
Proof.
  apply (propagate_orbit_raise_leaves_views (S := Euler.state)
           Standin.true_anomaly_r short short ValueError).
  exact short_raises.
Defined.

Lemma first_integrate_exception_witness :
  propagate_orbit Standin.true_anomaly_r short = (short, Raised ValueError).
Proof.
  apply (first_integrate_exception_leaves_instance (S := Euler.state)
           Standin.true_anomaly_r short short_solver 1%float 1 4 ValueError);
    first [lia | vm_compute; reflexivity].
Defined.

Lemma completed_run_witness :
  self_step Run64.ran = Some 4 /\
  forall i : nat, 1 <= Z.of_nat i < 4 ->
    exists s_i row nu ts ys ta,
      advance_n 1%float i fresh_solver = inr s_i /\
      self_ts Run64.ran = Some ts /\ ts !! i = Some (sol_t s_i) /\
      self_ys Run64.ran = Some ys /\ ys !! i = Some row /\
      broadcast_row 6 (sol_y s_i) = inr row /\
      self_ta Run64.ran = Some ta /\ Standin.true_anomaly_r row = inr nu /\
      ta !! i = Some nu.
Proof.
  apply (completed_run_records_every_sample (S := Euler.state)
           Standin.coes2rv Standin.true_anomaly_r
           Run64.circular 4%float 1%float true true Run64.unit_body
           Run64.fresh Run64.ran 4 fresh_solver).
  - exact Run64.fresh_constructed.
  - vm_compute. reflexivity.
  - vm_compute. reflexivity.
  - exact Run64.ran_returned.
Defined.

Lemma single_sample_witness :
  new (S := Euler.state) Standin.coes2rv Standin.true_anomaly_r
    Run64.circular 0.5%float 1%float true true true Run64.unit_body
  = Return (set_vs (ColSlice (Some 3%nat) None)
              (set_rs (ColSlice None (Some 3%nat))
                 (configured [1; 0; 0]%float [0; 1; 0]%float Run64.circular
                    0.5%float 1%float Run64.unit_body 1 1%float))).
Proof.
  apply (single_sample_when_one_step (S := Euler.state)
           Standin.coes2rv Standin.true_anomaly_r
           Run64.circular 0.5%float 1%float true Run64.unit_body 1%float
           [1; 0; 0]%float [0; 1; 0]%float 0.5%float 1%float);
    reflexivity.
Defined.
End Check64.
